(** * yarr: HTML export to Notion blocks and inline translation

    A shallow embedding of
      - [src/notion/converter.go]  (HTML -> Notion blocks),
      - [src/notion/types.go]      (the block records),
      - the Notion client          ([CreatePage], [appendBlocks]),
      - the HTML translator        ([traverseAndTranslate] and friends),
    together with the properties the specification states about them.

    Go strings are byte sequences: they are modelled by [string] (a list of
    8-bit [ascii]), [len] by [String.length], and the slice expressions
    [s[:n]] and [s[n:]] by [substring].  The lengths that occur are far
    below 2^63, so Go's [int] is modelled by [nat]. *)

From Stdlib Require Import String Ascii List Arith ZArith Bool Lia DecimalString.
From Equations Require Import Equations.
Import ListNotations.
Open Scope string_scope.
Open Scope list_scope.

Set Implicit Arguments.

(* ================================================================== *)
(** * Go values shared by the packages *)

(** Go's [error] interface: a message, and possibly a wrapped error (the
    operand of a [%w] verb in [fmt.Errorf]). *)
Inductive error : Type :=
| errorString (msg : string)
| wrapError (msg : string) (wrapped : error).

(** [err.Error()] *)
Definition Error (e : error) : string :=
  match e with
  | errorString msg => msg
  | wrapError msg _ => msg
  end.

(** A Go result pair [(value, err)] with [err != nil] in the [Err] case. *)
Inductive result (A : Type) : Type :=
| Ok (a : A)
| Err (e : error).
Arguments Ok {A} a.
Arguments Err {A} e.

(** [s[:n]] for [n <= len(s)]. *)
Definition sliceTo (n : nat) (s : string) : string := substring 0 n s.

(** [s[n:]] for [n <= len(s)]. *)
Definition sliceFrom (n : nat) (s : string) : string :=
  substring n (String.length s - n) s.

(** [strings.Builder]: the concatenation of the pieces written so far. *)
Definition joinStrings (l : list string) : string := String.concat "" l.

(** The part of Go's [strings] package the program uses. *)
Class StringsPkg : Type := {
  TrimSpace : string -> string
}.

(** ASCII white space, as in the fast path of [strings.TrimSpace]. *)
Definition isAsciiSpace (c : ascii) : bool :=
  match c with
  | "009"%char | "010"%char | "011"%char | "012"%char | "013"%char
  | " "%char => true
  | _ => false
  end.

Fixpoint trimLeftAscii (s : string) : string :=
  match s with
  | EmptyString => EmptyString
  | String c s' => if isAsciiSpace c then trimLeftAscii s' else s
  end.

Fixpoint trimRightAscii (s : string) : string :=
  match s with
  | EmptyString => EmptyString
  | String c s' =>
      match trimRightAscii s' with
      | EmptyString => if isAsciiSpace c then EmptyString else String c EmptyString
      | r => String c r
      end
  end.

(** [strings.TrimSpace] on text whose white space is ASCII (Go also trims
    the Unicode spaces U+0085, U+00A0, ...).  Used to run the program on
    concrete ASCII documents. *)
Definition asciiStrings : StringsPkg :=
  {| TrimSpace := fun s => trimRightAscii (trimLeftAscii s) |}.

(* ================================================================== *)
(** * golang.org/x/net/html: the node tree *)

Module html.

Inductive NodeType : Type :=
| ErrorNode | TextNode | DocumentNode | ElementNode
| CommentNode | DoctypeNode | RawNode.

Definition NodeType_eqb (a b : NodeType) : bool :=
  match a, b with
  | ErrorNode, ErrorNode | TextNode, TextNode
  | DocumentNode, DocumentNode | ElementNode, ElementNode
  | CommentNode, CommentNode | DoctypeNode, DoctypeNode
  | RawNode, RawNode => true
  | _, _ => false
  end.

Record Attribute : Type := mkAttribute {
  Namespace : string;
  Key : string;
  Val : string
}.

(** [html.Node].  The [FirstChild]/[NextSibling] chain is the list
    [Children]; the loops [for c := n.FirstChild; c != nil;
    c = c.NextSibling] of the program run over it. *)
#[warnings="-register-all"] Inductive Node : Type :=
| mkNode (Type_ : NodeType) (Data : string) (Attr : list Attribute)
         (Children : list Node).

Definition Type_ (n : Node) : NodeType :=
  match n with mkNode t _ _ _ => t end.
Definition Data (n : Node) : string :=
  match n with mkNode _ d _ _ => d end.
Definition Attr (n : Node) : list Attribute :=
  match n with mkNode _ _ a _ => a end.
Definition Children (n : Node) : list Node :=
  match n with mkNode _ _ _ c => c end.

(** The functions of the package the program calls.  The HTML5 parsing
    and serialisation algorithms are not part of this repository. *)
Class Pkg : Type := {
  Parse : string -> result Node;
  Render : Node -> string;
  EscapeString : string -> string
}.

(** Builders for concrete documents. *)
Definition text (s : string) : Node := mkNode TextNode s [] [].
Definition elem (tag : string) (cs : list Node) : Node :=
  mkNode ElementNode tag [] cs.
(** The tree [html.Parse] builds around body content [cs]:
    document > html > (head, body > cs). *)
Definition document (cs : list Node) : Node :=
  mkNode DocumentNode "" []
    [elem "html" [elem "head" []; elem "body" cs]].

End html.

Notation "a =t? b" := (html.NodeType_eqb a b) (at level 70).

(* ================================================================== *)
(** * package notion *)

Module notion.
Import html.

(** ** types.go *)

Record Text : Type := mkText { Content : string }.
Record RichText : Type := mkRichText { Text_ : Text }.

Record ParagraphBlock : Type := mkParagraphBlock { Paragraph_RichText : list RichText }.
Record HeadingBlock : Type := mkHeadingBlock { Heading_RichText : list RichText }.
Record BulletedListItemBlock : Type :=
  mkBulletedListItemBlock { BulletedListItem_RichText : list RichText }.
Record NumberedListItemBlock : Type :=
  mkNumberedListItemBlock { NumberedListItem_RichText : list RichText }.
Record QuoteBlock : Type := mkQuoteBlock { Quote_RichText : list RichText }.
Record CodeBlock : Type := mkCodeBlock {
  Code_RichText : list RichText;
  Language : string
}.

(** [Block]: the pointer fields are [option]s ([nil] is [None]). *)
Record Block : Type := mkBlock {
  Object : string;
  Type_ : string;
  Paragraph : option ParagraphBlock;
  Heading1 : option HeadingBlock;
  Heading2 : option HeadingBlock;
  Heading3 : option HeadingBlock;
  BulletedListItem : option BulletedListItemBlock;
  NumberedListItem : option NumberedListItemBlock;
  Quote : option QuoteBlock;
  Code : option CodeBlock
}.

Definition paragraphBlock (rt : list RichText) : Block :=
  mkBlock "block" "paragraph" (Some (mkParagraphBlock rt))
          None None None None None None None.
Definition heading1Block (rt : list RichText) : Block :=
  mkBlock "block" "heading_1" None (Some (mkHeadingBlock rt))
          None None None None None None.
Definition heading2Block (rt : list RichText) : Block :=
  mkBlock "block" "heading_2" None None (Some (mkHeadingBlock rt))
          None None None None None.
Definition heading3Block (rt : list RichText) : Block :=
  mkBlock "block" "heading_3" None None None (Some (mkHeadingBlock rt))
          None None None None.
Definition bulletedListItemBlock (rt : list RichText) : Block :=
  mkBlock "block" "bulleted_list_item" None None None None
          (Some (mkBulletedListItemBlock rt)) None None None.
Definition quoteBlock (rt : list RichText) : Block :=
  mkBlock "block" "quote" None None None None None None
          (Some (mkQuoteBlock rt)) None.
Definition codeBlock (rt : list RichText) : Block :=
  mkBlock "block" "code" None None None None None None None
          (Some (mkCodeBlock rt "plain text")).

Definition optList {A B : Type} (f : A -> list B) (o : option A) : list B :=
  match o with Some a => f a | None => [] end.

(** Every rich-text run a block carries, whatever its kind. *)
Definition blockRichText (b : Block) : list RichText :=
  optList Paragraph_RichText (Paragraph b) ++
  optList Heading_RichText (Heading1 b) ++
  optList Heading_RichText (Heading2 b) ++
  optList Heading_RichText (Heading3 b) ++
  optList BulletedListItem_RichText (BulletedListItem b) ++
  optList NumberedListItem_RichText (NumberedListItem b) ++
  optList Quote_RichText (Quote b) ++
  optList Code_RichText (Code b).

Definition runText (r : RichText) : string := Content (Text_ r).

(** The text contents of a block's runs, in order. *)
Definition blockTexts (b : Block) : list string :=
  map runText (blockRichText b).

Record PageCreateResponse : Type := mkPageCreateResponse {
  Resp_Object : string;
  ID : string;
  URL : string
}.

Record Parent : Type := mkParent { Parent_DatabaseID : string }.
Record TitleProperty : Type := mkTitleProperty { Title_ : list RichText }.
Record Properties : Type := mkProperties { Title : TitleProperty }.
Record PageCreateRequest : Type := mkPageCreateRequest {
  Parent_ : Parent;
  Properties_ : Properties;
  Children : list Block
}.

(** ** converter.go *)

Definition MaxBlockTextLength : nat := 2000.

(** The [for len(text) > maxLen] loop of [splitTextIntoChunks].  It does
    not terminate for [maxLen = 0] and a non-empty text, so the model
    counts iterations: [None] means the fuel ran out. *)
Fixpoint splitLoop (fuel : nat) (text : string) (maxLen : nat)
         (chunks : list string) : option (list string) :=
  if (maxLen <? String.length text)%nat then
    match fuel with
    | O => None
    | S fuel' =>
        splitLoop fuel' (sliceFrom maxLen text) maxLen
                  (chunks ++ [sliceTo maxLen text])
    end
  else
    Some (if (0 <? String.length text)%nat then chunks ++ [text] else chunks).

(** [splitTextIntoChunks], run with [len(text)] iterations of fuel. *)
Definition splitTextIntoChunks (text : string) (maxLen : nat)
  : option (list string) :=
  if (String.length text <=? maxLen)%nat then Some [text]
  else splitLoop (String.length text) text maxLen [].

Section Converter.
Context {strings : StringsPkg}.

Definition isContainerTag (d : string) : bool :=
  (d =? "ul") || (d =? "ol") || (d =? "div").

(** [extractText] of converter.go. *)
Fixpoint extractText (n : Node) : string :=
  match n with
  | mkNode ty data _ children =>
      if ty =t? TextNode then TrimSpace data
      else if isContainerTag data then ""
      else
        TrimSpace
          (joinStrings
             (map (fun c =>
                     match html.Type_ c with
                     | TextNode => Data c
                     | ElementNode => extractText c
                     | _ => ""
                     end) children))
  end.

Definition isHeading (n : Node) : bool :=
  (Data n =? "h1") || (Data n =? "h2") || (Data n =? "h3").

(** What one iteration of the [for _, chunk := range textChunks] loop
    does. *)
Inductive iteration : Type :=
| Append (block : Block)   (* falls through to [blocks = append(...)] *)
| Continue                 (* [continue] *)
| ReturnNil.               (* [return nil] *)

(** The [switch n.Data] of [convertNodeToBlocks]. *)
Definition switchData (n : Node) (richText : list RichText) : iteration :=
  let d := Data n in
  if d =? "h1" then Append (heading1Block richText)
  else if d =? "h2" then Append (heading2Block richText)
  else if d =? "h3" then Append (heading3Block richText)
  else if d =? "li" then Append (bulletedListItemBlock richText)
  else if d =? "blockquote" then Append (quoteBlock richText)
  else if (d =? "pre") || (d =? "code") then Append (codeBlock richText)
  else if d =? "p" then Append (paragraphBlock richText)
  else if isContainerTag d then ReturnNil
  else if (html.Type_ n =t? TextNode) && negb (TrimSpace d =? "")
       then Append (paragraphBlock richText)
  else Continue.

Fixpoint rangeChunks (n : Node) (textChunks : list string)
         (blocks : list Block) : list Block :=
  match textChunks with
  | [] => blocks
  | chunk :: rest =>
      match switchData n [mkRichText (mkText chunk)] with
      | Append block => rangeChunks n rest (blocks ++ [block])
      | Continue => rangeChunks n rest blocks
      | ReturnNil => []
      end
  end.

(** [convertNodeToBlocks].  [splitTextIntoChunks] is called with the
    constant [MaxBlockTextLength], for which its loop terminates
    (lemma [splitTextIntoChunks_returns] below), so the [None] arm is
    never taken. *)
Definition convertNodeToBlocks (n : Node) : list Block :=
  let text := extractText n in
  if text =? "" then []
  else
    let text :=
      if isHeading n && (MaxBlockTextLength <? String.length text)%nat
      then (sliceTo (MaxBlockTextLength - 3) text ++ "...")%string
      else text in
    let textChunks :=
      if negb (isHeading n) && (MaxBlockTextLength <? String.length text)%nat
      then match splitTextIntoChunks text MaxBlockTextLength with
           | Some chunks => chunks
           | None => [text]
           end
      else [text] in
    rangeChunks n textChunks [].

(** The closure [f] of [HTMLToNotionBlocks]; the captured slice
    [blocks] is passed and returned. *)
Fixpoint f (n : Node) (blocks : list Block) : list Block :=
  match n with
  | mkNode ty _ _ children =>
      let blocks :=
        if ty =t? ElementNode then blocks ++ convertNodeToBlocks n
        else blocks in
      fold_left (fun blocks c => f c blocks) children blocks
  end.

Context {htmlpkg : html.Pkg}.

Definition HTMLToNotionBlocks (htmlContent : string) : result (list Block) :=
  match Parse htmlContent with
  | Err err => Err err
  | Ok doc =>
      let blocks := f doc [] in
      let blocks :=
        if (List.length blocks =? 0)%nat
        then blocks ++ [paragraphBlock [mkRichText (mkText "")]]
        else blocks in
      Ok blocks
  end.

End Converter.

(** ** errors (the sentinel values of the package) *)

Definition ErrMissingAPIKey : error := errorString "notion: API key is required".
Definition ErrMissingDatabaseID : error := errorString "notion: database ID is required".
Definition ErrAPICallFailed : error := errorString "notion: API call failed".
Definition ErrConversionFailed : error := errorString "notion: HTML conversion failed".

(** [fmt.Errorf("%w: %v", w, v)] *)
Definition Errorf_w_v (w v : error) : error :=
  wrapError (Error w ++ ": " ++ Error v)%string w.

(** The [%d] verb. *)
Definition itoa (z : Z) : string := NilZero.string_of_int (Z.to_int z).

(** [fmt.Errorf("%w: API returned status %d: %s", w, status, body)] *)
Definition Errorf_status (w : error) (status : Z) (body : string) : error :=
  wrapError (Error w ++ ": API returned status " ++ itoa status ++ ": " ++ body)%string w.

(** [fmt.Errorf("page created but failed to append remaining blocks: %w", err)] *)
Definition Errorf_append (err : error) : error :=
  wrapError ("page created but failed to append remaining blocks: " ++ Error err)%string err.

(** ** The client *)

(** The values handed to [json.Marshal]. *)
Inductive Payload : Type :=
| PageCreate (reqBody : PageCreateRequest)
| ChildrenMap (children : list Block).  (* map[string]interface{}{"children": blocks} *)

(** [http.Request], as far as the client fills it. *)
Record Request : Type := mkRequest {
  Method : string;
  Req_URL : string;
  Header : list (string * string);
  Body : string
}.

(** [req.Header.Set(key, value)] *)
Definition HeaderSet (key value : string) (req : Request) : Request :=
  mkRequest (Method req) (Req_URL req)
    (filter (fun kv => negb (fst kv =? key)) (Header req) ++ [(key, value)])
    (Body req).

(** [http.Response]: the status and what [io.ReadAll(resp.Body)] yields. *)
Record Response : Type := mkResponse {
  StatusCode : Z;
  ReadAll_Body : result string
}.

Definition StatusOK : Z := 200%Z.

(** The libraries and the remote service behind the client.  [World] is
    the state of everything outside the process; [Do] is
    [n.HTTPClient.Do]. *)
Class Env (World : Type) : Type := {
  Marshal : Payload -> result string;
  Unmarshal : string -> result PageCreateResponse;
  NewRequestWithContext : string -> string -> string -> result Request;
  Do : Request -> World -> result Response * World
}.

(** The outside world together with the requests sent to it so far,
    each with the value its body was marshalled from. *)
Record Net (World : Type) : Type := mkNet {
  world : World;
  sent : list (Payload * Request)
}.

(** The values sent so far, in order. *)
Definition payloads (World : Type) (s : Net World) : list Payload :=
  map fst (sent s).

Record NotionClient : Type := mkNotionClient {
  APIKey : string;
  DatabaseID : string
}.

Definition maxBlocksPerRequest : nat := 100.

Section Client.
Context {strings : StringsPkg} {htmlpkg : html.Pkg}.
Context {World : Type} {env : Env World}.

(** [n.HTTPClient.Do(req)], for a request whose body encodes
    [payload]. *)
Definition send (payload : Payload) (req : Request) (s : Net World)
  : result Response * Net World :=
  let (r, w) := Do req (world s) in
  (r, mkNet w (sent s ++ [(payload, req)])).

Definition setHeaders (n : NotionClient) (req : Request) : Request :=
  HeaderSet "Notion-Version" "2022-06-28"
    (HeaderSet "Content-Type" "application/json"
       (HeaderSet "Authorization" ("Bearer " ++ APIKey n)%string req)).

(** [appendBlocksBatch] *)
Definition appendBlocksBatch (n : NotionClient) (pageID : string)
           (blocks : list Block) (s : Net World) : option error * Net World :=
  match Marshal (ChildrenMap blocks) with
  | Err err => (Some (Errorf_w_v ErrAPICallFailed err), s)
  | Ok jsonData =>
      let url := ("https://api.notion.com/v1/blocks/" ++ pageID ++ "/children")%string in
      match NewRequestWithContext "PATCH" url jsonData with
      | Err err => (Some (Errorf_w_v ErrAPICallFailed err), s)
      | Ok req =>
          match send (ChildrenMap blocks) (setHeaders n req) s with
          | (Err err, s) => (Some (Errorf_w_v ErrAPICallFailed err), s)
          | (Ok resp, s) =>
              match ReadAll_Body resp with
              | Err err => (Some (Errorf_w_v ErrAPICallFailed err), s)
              | Ok body =>
                  if negb (StatusCode resp =? StatusOK)%Z
                  then (Some (Errorf_status ErrAPICallFailed (StatusCode resp) body), s)
                  else (None, s)
              end
          end
      end
  end.

(** [blocks[i:end]] for [i <= end <= len(blocks)]. *)
Definition subslice (A : Type) (i end_ : nat) (l : list A) : list A :=
  firstn (end_ - i) (skipn i l).

(** The loop [for i := 0; i < len(blocks); i += maxBlocksPerRequest]
    of [appendBlocks], from a given [i]. *)
Equations? appendLoop (n : NotionClient) (pageID : string)
           (blocks : list Block) (i : nat) (s : Net World)
  : option error * Net World by wf (List.length blocks - i) lt :=
  appendLoop n pageID blocks i s with lt_dec i (List.length blocks) => {
    | right _ => (None, s)
    | left _ =>
        let end_ := i + maxBlocksPerRequest in
        let end_ := if (List.length blocks <? end_)%nat
                    then List.length blocks else end_ in
        let batch := subslice i end_ blocks in
        match appendBlocksBatch n pageID batch s with
        | (Some err, s) => (Some err, s)
        | (None, s) => appendLoop n pageID blocks (i + maxBlocksPerRequest) s
        end
    }.
Proof.
  unfold maxBlocksPerRequest. lia.
Qed.

Definition appendBlocks (n : NotionClient) (pageID : string)
           (blocks : list Block) (s : Net World) : option error * Net World :=
  appendLoop n pageID blocks 0 s.

(** The page-creation request of [CreatePage] (from the construction of
    [reqBody] to the decoding of the response), with the blocks it
    carries. *)
Definition postPage (n : NotionClient) (title : string)
           (initialBlocks : list Block) (s : Net World)
  : result PageCreateResponse * Net World :=
  let reqBody :=
    mkPageCreateRequest
      (mkParent (DatabaseID n))
      (mkProperties (mkTitleProperty [mkRichText (mkText title)]))
      initialBlocks in
  match Marshal (PageCreate reqBody) with
  | Err err => (Err (Errorf_w_v ErrAPICallFailed err), s)
  | Ok jsonData =>
      match NewRequestWithContext "POST" "https://api.notion.com/v1/pages" jsonData with
      | Err err => (Err (Errorf_w_v ErrAPICallFailed err), s)
      | Ok req =>
          match send (PageCreate reqBody) (setHeaders n req) s with
          | (Err err, s) => (Err (Errorf_w_v ErrAPICallFailed err), s)
          | (Ok resp, s) =>
              match ReadAll_Body resp with
              | Err err => (Err (Errorf_w_v ErrAPICallFailed err), s)
              | Ok body =>
                  if negb (StatusCode resp =? StatusOK)%Z
                  then (Err (Errorf_status ErrAPICallFailed (StatusCode resp) body), s)
                  else
                    match Unmarshal body with
                    | Err err => (Err (Errorf_w_v ErrAPICallFailed err), s)
                    | Ok pageResp => (Ok pageResp, s)
                    end
              end
          end
      end
  end.

(** [CreatePage]: the returned pair [(string, error)] and the state of
    the network afterwards. *)
Definition CreatePage (n : NotionClient) (title content : string)
           (s : Net World) : (string * option error) * Net World :=
  match HTMLToNotionBlocks content with
  | Err err => (("", Some (Errorf_w_v ErrConversionFailed err)), s)
  | Ok blocks =>
      let initialBlocks :=
        if (maxBlocksPerRequest <? List.length blocks)%nat
        then firstn maxBlocksPerRequest blocks else blocks in
      match postPage n title initialBlocks s with
      | (Err err, s) => (("", Some err), s)
      | (Ok pageResp, s) =>
          if (maxBlocksPerRequest <? List.length blocks)%nat then
            let remainingBlocks := skipn maxBlocksPerRequest blocks in
            match appendBlocks n (ID pageResp) remainingBlocks s with
            | (Some err, s) => ((URL pageResp, Some (Errorf_append err)), s)
            | (None, s) => ((URL pageResp, None), s)
            end
          else ((URL pageResp, None), s)
      end
  end.

(** [batches] cuts [l] into consecutive batches of [size] elements:
    every batch but the last has exactly [size] of them, the last at
    least one and at most [size]. *)
Definition cutInto (A : Type) (size : nat) (l : list A)
           (batches : list (list A)) : Prop :=
  concat batches = l
  /\ Forall (fun b => 0 < List.length b <= size) batches
  /\ Forall (fun b => List.length b = size) (removelast batches).

End Client.

(** ** The constructor of the client *)

Record Config : Type := mkConfig {
  Config_APIKey : string;
  Config_DatabaseID : string
}.

(** [New].  (The [http.Client] it creates, with its timeout of thirty
    seconds, is the environment's [Do].) *)
Definition New (config : Config) : result NotionClient :=
  if Config_APIKey config =? "" then Err ErrMissingAPIKey
  else if Config_DatabaseID config =? "" then Err ErrMissingDatabaseID
  else Ok (mkNotionClient (Config_APIKey config) (Config_DatabaseID config)).

End notion.

(* ================================================================== *)
(** * package translator *)

Module translator.
Import html.

(** The [Translator] interface.  A call reaches an external service, so
    it reads and changes the state [World] of that service.  (The
    [context.Context] is only forwarded by the program and is left
    out.) *)
Class Translator (World : Type) : Type := {
  Translate : string -> string -> World -> result string * World
}.

(** A translator that also records the texts it is asked to translate. *)
Definition logged (World : Type) (T : Translator World)
  : Translator (World * list (string * string)) :=
  {| Translate := fun content targetLang wl =>
       let (r, w) := @Translate World T content targetLang (fst wl) in
       (r, (w, snd wl ++ [(content, targetLang)])) |}.

(** The library calls of the text fall-back. *)
Class FallbackPkg : Type := {
  Split : string -> string -> list string;
  MatchString : string -> string -> bool  (* regexp.MatchString; its error is dropped *)
}.

(** What a traversal works on: the [strings.Builder] it writes to and
    the state of the translation service. *)
Record State (World : Type) : Type := mkState {
  result_ : string;
  world : World
}.

Definition dquote : string := String (ascii_of_nat 34) EmptyString.
Definition newline : string := String (ascii_of_nat 10) EmptyString.
Definition tab : string := String (ascii_of_nat 9) EmptyString.

Section HTMLTranslator.
Context {strings : StringsPkg} {htmlpkg : html.Pkg} {fallback : FallbackPkg}.
Context {World : Type} {translator : Translator World}.
(** [ht.targetLang] *)
Variable targetLang : string.

(** [result.WriteString(s)] *)
Definition WriteString (s : string) (st : State World) : State World :=
  mkState (result_ st ++ s)%string (world st).

(** [ht.translator.Translate(ht.ctx, text, ht.targetLang)] *)
Definition callTranslate (text : string) (st : State World)
  : result string * State World :=
  let (r, w) := Translate text targetLang (world st) in
  (r, mkState (result_ st) w).

Definition codeTags (d : string) : bool :=
  (d =? "pre") || (d =? "code") || (d =? "kbd") || (d =? "samp") || (d =? "var").

Definition isCodeBlock (n : Node) : bool :=
  if negb (Type_ n =t? ElementNode) then false else codeTags (Data n).

Definition blockTags (d : string) : bool :=
  (d =? "p") || (d =? "div") || (d =? "h1") || (d =? "h2") || (d =? "h3")
  || (d =? "h4") || (d =? "h5") || (d =? "h6") || (d =? "li")
  || (d =? "blockquote") || (d =? "td") || (d =? "th") || (d =? "dd")
  || (d =? "dt") || (d =? "figcaption").

Definition isTranslatableBlock (n : Node) : bool :=
  if negb (Type_ n =t? ElementNode) then false else blockTags (Data n).

(** [ht.extractText] *)
Fixpoint extractText (n : Node) : string :=
  match n with
  | mkNode ty data _ children =>
      if ty =t? TextNode then data
      else if isCodeBlock n then ""
      else joinStrings (map extractText children)
  end.

(** [ht.createTranslationElement] *)
Definition createTranslationElement (original : Node) (translatedText : string)
  : string :=
  let tag := Data original in
  let attrs :=
    joinStrings
      (map (fun attr =>
              (" " ++ Key attr ++ "=" ++ dquote ++ EscapeString (Val attr) ++ dquote)%string)
           (Attr original)) in
  let attrs := (attrs ++ " class=" ++ dquote ++ "yarr-translation" ++ dquote)%string in
  let attrs :=
    (attrs ++ " style=" ++ dquote
     ++ "color: #555; margin-top: 0.3em; margin-bottom: 1em; padding-left: 1.2em; border-left: 4px solid #4CAF50 !important; background-color: rgba(76, 175, 80, 0.05);"
     ++ dquote)%string in
  ("<" ++ tag ++ attrs ++ ">" ++ EscapeString translatedText ++ "</" ++ tag ++ ">")%string.

(** What [traverseAndTranslate] does at a translatable block. *)
Definition translateBlock (n : Node) (st : State World)
  : option error * State World :=
  let text := TrimSpace (extractText n) in
  if negb (text =? "") then
    let st := WriteString (Render n) st in
    match callTranslate text st with
    | (Err _, st) => (None, st)
    | (Ok translated, st) =>
        (None, WriteString (createTranslationElement n translated) st)
    end
  else (None, st).

(** [ht.traverseAndTranslate]: the returned [error] and the state
    afterwards. *)
Fixpoint traverseAndTranslate (n : Node) (st : State World) {struct n}
  : option error * State World :=
  match n with
  | mkNode ty _ _ children =>
      let traverseChildren :=
        (fix loop (cs : list Node) (st : State World) {struct cs} :=
           match cs with
           | [] => (None, st)
           | c :: cs' =>
               match traverseAndTranslate c st with
               | (Some err, st) => (Some err, st)
               | (None, st) => loop cs' st
               end
           end) children in
      if ty =t? ElementNode then
        if isCodeBlock n then (None, WriteString (Render n) st)
        else if isTranslatableBlock n then translateBlock n st
        else traverseChildren st
      else traverseChildren st
  end.

(** The loop over the children at the end of [traverseAndTranslate]. *)
Fixpoint traverseChildren (cs : list Node) (st : State World)
  : option error * State World :=
  match cs with
  | [] => (None, st)
  | c :: cs' =>
      match traverseAndTranslate c st with
      | (Some err, st) => (Some err, st)
      | (None, st) => traverseChildren cs' st
      end
  end.

(** [ht.looksLikeCode] *)
Definition looksLikeCode (text : string) : bool :=
  let lines := Split text newline in
  let codeLineCount :=
    fold_left
      (fun count line =>
         let count :=
           if prefix "    " line || prefix tab line then S count else count in
         if MatchString "^[a-zA-Z_][a-zA-Z0-9_]*\s*[=({]" line
         then S count else count)
      lines 0 in
  (List.length lines / 2 <? codeLineCount)%nat.

(** [ht.translateSimpleText] *)
Definition translateSimpleText (text : string) (w : World)
  : (string * option error) * World :=
  let paragraphs := Split text (newline ++ newline)%string in
  let st :=
    fold_left
      (fun st para =>
         let para := TrimSpace para in
         if para =? "" then st
         else if looksLikeCode para
         then WriteString (newline ++ newline)%string (WriteString para st)
         else
           let st := WriteString (newline ++ newline)%string (WriteString para st) in
           match callTranslate para st with
           | (Ok translated, st) =>
               WriteString (newline ++ newline)%string
                 (WriteString translated (WriteString "[译] " st))
           | (Err _, st) => st
           end)
      paragraphs (mkState "" w) in
  ((result_ st, None), world st).

(** [ht.TranslateHTML] *)
Definition TranslateHTML (htmlContent : string) (w : World)
  : (string * option error) * World :=
  match Parse htmlContent with
  | Err _ => translateSimpleText htmlContent w
  | Ok doc =>
      match traverseAndTranslate doc (mkState "" w) with
      | (Some err, st) => (("", Some err), world st)
      | (None, st) => ((result_ st, None), world st)
      end
  end.

(** The same tree with the content of every code block removed. *)
Fixpoint redact (n : Node) : Node :=
  match n with
  | mkNode ty data attr children =>
      if isCodeBlock n
      then mkNode ty data attr []
      else mkNode ty data attr (map redact children)
  end.

(** No code block and no translatable block anywhere in the tree. *)
Fixpoint plain (n : Node) : bool :=
  match n with
  | mkNode _ _ _ children =>
      negb (isCodeBlock n) && negb (isTranslatableBlock n)
      && forallb plain children
  end.

End HTMLTranslator.

(** ** The factory of translators *)

Definition ErrProviderNotConfigured : error :=
  errorString "translation provider not configured".
Definition ErrProviderNotSupported : error :=
  errorString "translation provider not supported".
Definition ErrContentTooLong : error := errorString "content too long to translate".
Definition ErrAPICallFailed : error := errorString "API call failed".

Record Config : Type := mkConfig {
  Provider : string;
  APIKey : string;
  URL : string;
  Model : string;
  TargetLang : string
}.

(** The values [New] returns behind the [Translator] interface: pointers
    to one of the four translator structs, with their fields. *)
Inductive Backend : Type :=
| GeminiTranslator (APIKey TargetLang : string)
| OllamaTranslator (URL Model TargetLang : string)
| GoogleTranslator (TargetLang : string)
| MicrosoftTranslator (APIKey TargetLang : string).

(** The [TargetLang] field of the struct. *)
Definition BackendTargetLang (b : Backend) : string :=
  match b with
  | GeminiTranslator _ lang => lang
  | OllamaTranslator _ _ lang => lang
  | GoogleTranslator lang => lang
  | MicrosoftTranslator _ lang => lang
  end.

(** [fmt.Errorf("%w: " + detail, w)] *)
Definition Errorf_w (w : error) (detail : string) : error :=
  wrapError (Error w ++ ": " ++ detail)%string w.

(** [New] *)
Definition New (config : Config) : result Backend :=
  let targetLang :=
    if TargetLang config =? "" then "zh-CN" else TargetLang config in
  let provider := Provider config in
  if provider =? "gemini" then
    if APIKey config =? ""
    then Err (Errorf_w ErrProviderNotConfigured "Gemini API key not set")
    else Ok (GeminiTranslator (APIKey config) targetLang)
  else if provider =? "ollama" then
    if URL config =? ""
    then Err (Errorf_w ErrProviderNotConfigured "Ollama URL not set")
    else
      let model := if Model config =? "" then "qwen2:4b" else Model config in
      Ok (OllamaTranslator (URL config) model targetLang)
  else if provider =? "google" then Ok (GoogleTranslator targetLang)
  else if provider =? "microsoft" then
    if APIKey config =? ""
    then Err (Errorf_w ErrProviderNotConfigured "Microsoft Translator API key not set")
    else Ok (MicrosoftTranslator (APIKey config) targetLang)
  else if (provider =? "disabled") || (provider =? "") then
    Err (Errorf_w ErrProviderNotConfigured "translation provider is disabled")
  else Err (Errorf_w ErrProviderNotSupported provider).

(** [truncateContent], for the non-negative limits it is called with. *)
Definition truncateContent (content : string) (maxLen : nat) : string :=
  if (String.length content <=? maxLen)%nat then content
  else (sliceTo maxLen content ++ "...")%string.

End translator.

(* ================================================================== *)
(** * Concrete documents and services, to run the program on *)

Module examples.
Import html.

(** A serialiser for attribute-free trees of plain ASCII text, where it
    writes what [html.Render] writes. *)
Fixpoint renderPlain (n : Node) : string :=
  match n with
  | mkNode ty data _ children =>
      let inner := joinStrings (map renderPlain children) in
      match ty with
      | TextNode => data
      | ElementNode => ("<" ++ data ++ ">" ++ inner ++ "</" ++ data ++ ">")%string
      | DocumentNode => inner
      | _ => ""
      end
  end.

(** The string of [n] copies of the byte [c]. *)
Fixpoint repeatChar (c : ascii) (n : nat) : string :=
  match n with
  | O => EmptyString
  | S n' => String c (repeatChar c n')
  end.

Definition helloTitle : string := "<p>hello</p><h1>Title</h1>".
Definition helloTitleDoc : Node :=
  document [elem "p" [text "hello"]; elem "h1" [text "Title"]].

Definition quoted : string := "<blockquote><p>hi</p></blockquote>".
Definition quotedDoc : Node :=
  document [elem "blockquote" [elem "p" [text "hi"]]].

Definition bareText : string := "hello".
Definition bareTextDoc : Node := document [text "hello"].

Definition divPre : string := "<div><pre>x=1</pre></div>".
Definition divPreNode : Node := elem "div" [elem "pre" [text "x=1"]].
Definition divPreDoc : Node := document [divPreNode].

(** Elements whose text is longer than a block may hold. *)
Definition longParagraph : Node := elem "p" [text (repeatChar "a" 5000)].
Definition longHeading : Node := elem "h1" [text (repeatChar "a" 2001)].
Definition longCell : Node := elem "td" [text (repeatChar "a" 2001)].
Definition longPre : Node := elem "pre" [text (repeatChar "a" 2001)].

(** The package [html] on the documents above: [Parse] knows their
    trees and rejects every other input. *)
Definition plainHtml : html.Pkg :=
  {| Parse := fun s =>
       if s =? helloTitle then Ok helloTitleDoc
       else if s =? quoted then Ok quotedDoc
       else if s =? bareText then Ok bareTextDoc
       else if s =? divPre then Ok divPreDoc
       else Err (errorString "unknown document");
     Render := renderPlain;
     EscapeString := fun s => s |}.

(** A document of 250 paragraphs, and the package [html] on it. *)
Definition manyParagraphsDoc : Node :=
  document (repeat (elem "p" [text "x"]) 250).
Definition manyParagraphs : html.Pkg :=
  {| Parse := fun _ => Ok manyParagraphsDoc;
     Render := renderPlain;
     EscapeString := fun s => s |}.

Definition examplePage : notion.PageCreateResponse :=
  notion.mkPageCreateResponse "page" "id1" "https://www.notion.so/id1".

(** A store that accepts every request.  Its state counts the requests;
    the encodings are place-holders. *)
Definition acceptingStore : notion.Env nat :=
  {| notion.Marshal := fun _ => Ok "{}";
     notion.Unmarshal := fun _ => Ok examplePage;
     notion.NewRequestWithContext := fun method url body =>
       Ok (notion.mkRequest method url [] body);
     notion.Do := fun _ w =>
       (Ok (notion.mkResponse 200 (Ok "{}")), S w) |}.

(** A store that accepts the first request and answers every later one
    with status 500. *)
Definition failingAfterFirst : notion.Env nat :=
  {| notion.Marshal := fun _ => Ok "{}";
     notion.Unmarshal := fun _ => Ok examplePage;
     notion.NewRequestWithContext := fun method url body =>
       Ok (notion.mkRequest method url [] body);
     notion.Do := fun _ w =>
       match w with
       | O => (Ok (notion.mkResponse 200 (Ok "{}")), S w)
       | S _ => (Ok (notion.mkResponse 500 (Ok "overloaded")), S w)
       end |}.

Definition exampleClient : notion.NotionClient :=
  notion.mkNotionClient "secret" "database".

(** A translation service that is down: every call fails.  Its state
    counts the calls. *)
Definition failing : translator.Translator nat :=
  {| translator.Translate := fun _ _ w =>
       (Err (errorString "service unavailable"), S w) |}.

(** A translation service that answers with the text in brackets. *)
Definition bracketing : translator.Translator nat :=
  {| translator.Translate := fun content _ w =>
       (Ok ("[" ++ content ++ "]")%string, S w) |}.

(** [strings.Split(s, sep)] for a non-empty separator: [s] is cut at
    every occurrence of [sep], found from left to right without overlap.
    [skip] counts the bytes of a separator still to be passed over and
    [cur] is the piece being read. *)
Fixpoint splitAt (sep s : string) (skip : nat) (cur : string) : list string :=
  match s with
  | EmptyString => [cur]
  | String c s' =>
      match skip with
      | S k => splitAt sep s' k cur
      | O =>
          if prefix sep s
          then cur :: splitAt sep s' (String.length sep - 1) EmptyString
          else splitAt sep s' 0 (cur ++ String c EmptyString)%string
      end
  end.

Definition isLetter (c : ascii) : bool :=
  let n := nat_of_ascii c in
  ((65 <=? n) && (n <=? 90) || (97 <=? n) && (n <=? 122) || (n =? 95))%nat.

Definition isWord (c : ascii) : bool :=
  let n := nat_of_ascii c in
  (isLetter c || (48 <=? n) && (n <=? 57))%nat.

(** [\s] of Go's regular expressions: tab, line feed, form feed, carriage
    return, space. *)
Definition isRegexpSpace (c : ascii) : bool :=
  let n := nat_of_ascii c in
  ((n =? 9) || (n =? 10) || (n =? 12) || (n =? 13) || (n =? 32))%nat.

Fixpoint afterSpaces (s : string) : bool :=
  match s with
  | EmptyString => false
  | String c s' =>
      if isRegexpSpace c then afterSpaces s'
      else (Ascii.eqb c "="%char || Ascii.eqb c "("%char || Ascii.eqb c "{"%char)
  end.

Fixpoint afterWord (s : string) : bool :=
  match s with
  | EmptyString => false
  | String c s' => if isWord c then afterWord s' else afterSpaces s
  end.

(** The one pattern the program gives to [regexp.MatchString]. *)
Definition assignmentPattern : string := "^[a-zA-Z_][a-zA-Z0-9_]*\s*[=({]".

(** Whether a line starts with an identifier, optional white space and
    one of [=], [(] and [{]. *)
Definition matchesAssignment (line : string) : bool :=
  match line with
  | EmptyString => false
  | String c s' => isLetter c && afterWord s'
  end.

(** The library calls of the text fall-back: [strings.Split] for
    non-empty separators and [regexp.MatchString] on the pattern of
    [looksLikeCode]. *)
Definition textPkg : translator.FallbackPkg :=
  {| translator.Split := fun s sep => splitAt sep s 0 EmptyString;
     translator.MatchString := fun pattern line =>
       (pattern =? assignmentPattern) && matchesAssignment line |}.

End examples.

(* ================================================================== *)
(** * Properties *)

Unset Implicit Arguments.

(** The texts of a block built by one of the block constructors. *)
Ltac block_texts :=
  unfold notion.blockTexts, notion.blockRichText; simpl;
  rewrite ?app_nil_r; reflexivity.

Section StringFacts.

Lemma length_append (a b : string) :
  String.length (a ++ b)%string = String.length a + String.length b.
Proof. induction a as [|c a IH]; simpl; [reflexivity | now rewrite IH]. Qed.

End StringFacts.

Section SliceFacts.

Lemma substring_all (s : string) : substring 0 (String.length s) s = s.
Proof. induction s as [|c s IH]; simpl; [reflexivity | now rewrite IH]. Qed.

Lemma sliceTo_sliceFrom (n : nat) (s : string) :
  n <= String.length s -> (sliceTo n s ++ sliceFrom n s)%string = s.
Proof.
  unfold sliceTo, sliceFrom. revert n.
  induction s as [|c s IH]; intros [|n] Hn; simpl in *; try lia; try reflexivity.
  - now rewrite substring_all.
  - f_equal. apply IH. lia.
Qed.

Lemma length_sliceTo (n : nat) (s : string) :
  n <= String.length s -> String.length (sliceTo n s) = n.
Proof.
  unfold sliceTo. revert n.
  induction s as [|c s IH]; intros [|n] Hn; simpl in *; try lia.
  f_equal. apply IH. lia.
Qed.

Lemma length_sliceFrom (n : nat) (s : string) :
  n <= String.length s -> String.length (sliceFrom n s) = String.length s - n.
Proof.
  intros Hn.
  pose proof (sliceTo_sliceFrom n s Hn) as E.
  apply (f_equal String.length) in E.
  rewrite length_append, length_sliceTo in E by exact Hn. lia.
Qed.

Lemma joinStrings_cons (a : string) (l : list string) :
  joinStrings (a :: l) = (a ++ joinStrings l)%string.
Proof.
  unfold joinStrings. destruct l as [|b l]; simpl.
  - induction a as [|c a IH]; simpl; [reflexivity | now rewrite <- IH].
  - reflexivity.
Qed.

Lemma append_assoc (a b c : string) :
  ((a ++ b) ++ c)%string = (a ++ (b ++ c))%string.
Proof. induction a as [|x a IH]; simpl; [reflexivity | now rewrite IH]. Qed.

Lemma append_empty_r (a : string) : (a ++ "")%string = a.
Proof. induction a as [|x a IH]; simpl; [reflexivity | now rewrite IH]. Qed.

Lemma joinStrings_app (l1 l2 : list string) :
  joinStrings (l1 ++ l2) = (joinStrings l1 ++ joinStrings l2)%string.
Proof.
  induction l1 as [|a l1 IH]; [reflexivity|].
  change ((a :: l1) ++ l2) with (a :: (l1 ++ l2)).
  now rewrite !joinStrings_cons, IH, append_assoc.
Qed.

Lemma length_zero_empty (s : string) : String.length s = 0 -> s = "".
Proof. destruct s; simpl; [reflexivity | discriminate]. Qed.

End SliceFacts.

Section SplitFacts.
Import notion.

(** The chunks a text is cut into: all of the full size but possibly the
    last, none empty, and together the text. *)
Lemma splitLoop_spec (maxLen : nat) (Hpos : 0 < maxLen) :
  forall fuel text chunks,
    String.length text <= fuel ->
    exists rest,
      splitLoop fuel text maxLen chunks = Some (chunks ++ rest)
      /\ joinStrings rest = text
      /\ Forall (fun c => 0 < String.length c <= maxLen) rest
      /\ Forall (fun c => String.length c = maxLen) (removelast rest)
      /\ (0 < String.length text -> rest <> []).
Proof.
  induction fuel as [|fuel IH]; intros text chunks Hfuel.
  - apply Nat.le_0_r, length_zero_empty in Hfuel. subst text.
    exists []. simpl. destruct maxLen; [lia|]. simpl.
    rewrite app_nil_r. split; [reflexivity|]. split; [reflexivity|].
    split; [constructor|]. split; [constructor|]. lia.
  - simpl. destruct (Nat.ltb_spec maxLen (String.length text)) as [Hlt|Hle].
    + assert (Hn : maxLen <= String.length text) by lia.
      destruct (IH (sliceFrom maxLen text) (chunks ++ [sliceTo maxLen text]))
        as (rest & E & Hj & Hall & Hfull & Hne).
      { rewrite length_sliceFrom by exact Hn. lia. }
      assert (Hrest : rest <> []).
      { apply Hne. rewrite length_sliceFrom by exact Hn. lia. }
      exists (sliceTo maxLen text :: rest).
      split; [|split; [|split; [|split]]].
      * rewrite E, <- app_assoc. reflexivity.
      * rewrite joinStrings_cons, Hj. now apply sliceTo_sliceFrom.
      * constructor; [rewrite length_sliceTo by exact Hn; lia | exact Hall].
      * destruct rest as [|r rest]; [congruence|].
        change (removelast (sliceTo maxLen text :: r :: rest))
          with (sliceTo maxLen text :: removelast (r :: rest)).
        constructor; [now apply length_sliceTo | exact Hfull].
      * discriminate.
    + destruct (Nat.ltb_spec 0 (String.length text)) as [Hnz|Hz].
      * exists [text]. split; [reflexivity|]. split; [reflexivity|].
        split; [constructor; [lia | constructor]|].
        split; [constructor | discriminate].
      * exists []. rewrite app_nil_r. split; [reflexivity|].
        split; [symmetry; apply length_zero_empty; lia|].
        split; [constructor|]. split; [constructor|]. lia.
Qed.

(** For a positive [maxLen] the loop of [splitTextIntoChunks] ends within
    the fuel it is given. *)
Lemma splitTextIntoChunks_returns (text : string) (maxLen : nat) :
  0 < maxLen -> exists chunks, splitTextIntoChunks text maxLen = Some chunks.
Proof.
  intros Hpos. unfold splitTextIntoChunks.
  destruct (String.length text <=? maxLen)%nat; [eauto|].
  destruct (splitLoop_spec maxLen Hpos (String.length text) text [] (le_n _))
    as (rest & E & _).
  eauto.
Qed.

(** With [maxLen = 0] and a non-empty text the loop never ends: no amount
    of fuel suffices. *)
Lemma splitLoop_zero_diverges (fuel : nat) :
  forall text chunks,
    0 < String.length text -> splitLoop fuel text 0 chunks = None.
Proof.
  induction fuel as [|fuel IH]; intros text chunks Hlen; simpl.
  - destruct (Nat.ltb_spec 0 (String.length text)); [reflexivity | lia].
  - destruct (Nat.ltb_spec 0 (String.length text)); [|lia].
    apply IH. unfold sliceFrom. rewrite Nat.sub_0_r, substring_all. exact Hlen.
Qed.

(** What [splitTextIntoChunks] returns for a positive [maxLen]. *)
Lemma splitTextIntoChunks_chunks (text : string) (maxLen : nat) :
  0 < maxLen ->
  exists chunks,
    splitTextIntoChunks text maxLen = Some chunks
    /\ (String.length text <= maxLen -> chunks = [text])
    /\ (maxLen < String.length text ->
        exists full last,
          chunks = full ++ [last]
          /\ full <> []
          /\ Forall (fun c => String.length c = maxLen) full
          /\ 0 < String.length last <= maxLen)
    /\ joinStrings chunks = text.
Proof.
  intros Hpos. unfold splitTextIntoChunks.
  destruct (Nat.leb_spec (String.length text) maxLen) as [Hle|Hgt].
  - exists [text]. split; [reflexivity|]. split; [reflexivity|].
    split; [lia | reflexivity].
  - destruct (splitLoop_spec maxLen Hpos (String.length text) text [] (le_n _))
      as (rest & E & Hj & Hall & Hfull & Hne).
    exists rest. simpl in E.
    split; [exact E|]. split; [lia|]. split; [|exact Hj].
    intros _.
    assert (Hrest : rest <> []) by (apply Hne; lia).
    pose proof (app_removelast_last "" Hrest) as Hsnoc.
    assert (Hlast : 0 < String.length (List.last rest "") <= maxLen).
    { rewrite Hsnoc in Hall. apply Forall_app in Hall.
      destruct Hall as [_ Hl]. now inversion Hl. }
    exists (removelast rest), (List.last rest "").
    split; [exact Hsnoc|]. split; [|split; [exact Hfull | exact Hlast]].
    intros Hnil. rewrite Hsnoc, Hnil in Hj.
    unfold joinStrings in Hj; simpl in Hj. subst text. lia.
Qed.

(** C3.  For a positive [maxLen], [splitTextIntoChunks text maxLen]
    returns; it returns [[text]] when [len(text) <= maxLen]; otherwise it
    returns slices of exactly [maxLen] bytes followed by a last,
    non-empty slice of at most [maxLen] bytes; and in both cases the
    slices concatenated in order are [text]. *)
Theorem C3_splitTextIntoChunks_spec (text : string) (maxLen : nat) :
  0 < maxLen ->
  exists chunks,
    splitTextIntoChunks text maxLen = Some chunks
    /\ (String.length text <= maxLen -> chunks = [text])
    /\ (maxLen < String.length text ->
        exists full last,
          chunks = full ++ [last]
          /\ full <> []
          /\ Forall (fun c => String.length c = maxLen) full
          /\ 0 < String.length last <= maxLen)
    /\ joinStrings chunks = text.
Proof. exact (splitTextIntoChunks_chunks text maxLen). Qed.

Lemma C3_splitTextIntoChunks_witness :
  0 < 3 /\
  exists chunks,
    splitTextIntoChunks "abcdefgh" 3 = Some chunks
    /\ (String.length "abcdefgh" <= 3 -> chunks = ["abcdefgh"])
    /\ (3 < String.length "abcdefgh" ->
        exists full last,
          chunks = full ++ [last]
          /\ full <> []
          /\ Forall (fun c => String.length c = 3) full
          /\ 0 < String.length last <= 3)
    /\ joinStrings chunks = "abcdefgh".
Proof.
  split; [lia|]. apply (C3_splitTextIntoChunks_spec "abcdefgh" 3). lia.
Defined.

End SplitFacts.

Section NodeInduction.
Import html.

(** Induction on node trees, with the hypothesis for every child. *)
Lemma Node_tree_ind (P : Node -> Prop) :
  (forall ty data attr children,
      Forall P children -> P (mkNode ty data attr children)) ->
  forall n, P n.
Proof.
  intros step.
  fix IH 1. intros [ty data attr children]. apply step.
  induction children as [|c cs IHcs]; constructor; [apply IH | exact IHcs].
Qed.

End NodeInduction.

Section ConverterFacts.
Import html notion.
Context {strings : StringsPkg}.

(** The [switch] looks at the node only: whatever the rich text, it
    builds a block of one kind around it, or skips, or returns. *)
Lemma switchData_uniform (n : Node) :
  (exists mk : list RichText -> Block,
      (forall rt, switchData n rt = Append (mk rt))
      /\ (forall rt, blockTexts (mk rt) = map runText rt))
  \/ (forall rt, switchData n rt = Continue)
  \/ (forall rt, switchData n rt = ReturnNil).
Proof.
  unfold switchData.
  destruct (Data n =? "h1"); [left; exists heading1Block; split; intros; [reflexivity|]|].
  { block_texts. }
  destruct (Data n =? "h2"); [left; exists heading2Block; split; intros; [reflexivity|]|].
  { block_texts. }
  destruct (Data n =? "h3"); [left; exists heading3Block; split; intros; [reflexivity|]|].
  { block_texts. }
  destruct (Data n =? "li");
    [left; exists bulletedListItemBlock; split; intros; [reflexivity|]|].
  { block_texts. }
  destruct (Data n =? "blockquote");
    [left; exists quoteBlock; split; intros; [reflexivity|]|].
  { block_texts. }
  destruct ((Data n =? "pre") || (Data n =? "code"));
    [left; exists codeBlock; split; intros; [reflexivity|]|].
  { block_texts. }
  destruct (Data n =? "p");
    [left; exists paragraphBlock; split; intros; [reflexivity|]|].
  { block_texts. }
  destruct (isContainerTag (Data n)); [right; right; reflexivity|].
  destruct ((html.Type_ n =t? TextNode) && negb (TrimSpace (Data n) =? ""));
    [left; exists paragraphBlock; split; intros; [reflexivity|] | right; left; reflexivity].
  block_texts.
Qed.

Lemma rangeChunks_Append (n : Node) (mk : list RichText -> Block) :
  (forall rt, switchData n rt = Append (mk rt)) ->
  forall textChunks blocks,
    rangeChunks n textChunks blocks
    = blocks ++ map (fun chunk => mk [mkRichText (mkText chunk)]) textChunks.
Proof.
  intros Hmk. induction textChunks as [|chunk rest IH]; intros blocks; simpl.
  - now rewrite app_nil_r.
  - rewrite Hmk, IH, <- app_assoc. reflexivity.
Qed.

Lemma rangeChunks_Continue (n : Node) :
  (forall rt, switchData n rt = Continue) ->
  forall textChunks blocks, rangeChunks n textChunks blocks = blocks.
Proof.
  intros Hc. induction textChunks as [|chunk rest IH]; intros blocks; simpl.
  - reflexivity.
  - rewrite Hc. apply IH.
Qed.

Lemma rangeChunks_ReturnNil (n : Node) :
  (forall rt, switchData n rt = ReturnNil) ->
  forall chunk rest blocks, rangeChunks n (chunk :: rest) blocks = [].
Proof. intros Hr chunk rest blocks. simpl. now rewrite Hr. Qed.

(** The texts of the blocks made from a list of chunks are those chunks,
    in order, or there are no blocks at all. *)
Lemma rangeChunks_texts (n : Node) (textChunks : list string) :
  flat_map blockTexts (rangeChunks n textChunks []) = textChunks
  \/ rangeChunks n textChunks [] = [].
Proof.
  destruct (switchData_uniform n) as [(mk & Hmk & Htexts) | [Hc | Hr]].
  - left. rewrite (rangeChunks_Append _ _ Hmk). simpl.
    induction textChunks as [|chunk rest IH]; simpl; [reflexivity|].
    now rewrite Htexts, IH.
  - right. now apply rangeChunks_Continue.
  - right. destruct textChunks; [reflexivity | now apply rangeChunks_ReturnNil].
Qed.

(** Every block made from a list of chunks carries exactly one of them. *)
Lemma rangeChunks_In (n : Node) (textChunks : list string) (b : Block) :
  In b (rangeChunks n textChunks []) ->
  exists chunk, In chunk textChunks /\ blockTexts b = [chunk].
Proof.
  destruct (switchData_uniform n) as [(mk & Hmk & Htexts) | [Hc | Hr]].
  - rewrite (rangeChunks_Append _ _ Hmk). simpl. intros Hin.
    apply in_map_iff in Hin. destruct Hin as (chunk & <- & Hin).
    exists chunk. split; [exact Hin | now rewrite Htexts].
  - rewrite (rangeChunks_Continue _ Hc). intros [].
  - destruct textChunks; [intros [] | rewrite (rangeChunks_ReturnNil _ Hr); intros []].
Qed.

(** The chunks [convertNodeToBlocks] hands to its loop are all within
    the limit. *)
Lemma convertNodeToBlocks_bounded (n : Node) (b : Block) :
  In b (convertNodeToBlocks n) ->
  Forall (fun s => String.length s <= MaxBlockTextLength) (blockTexts b).
Proof.
  unfold convertNodeToBlocks.
  destruct (extractText n =? ""); [intros []|].
  set (text0 := extractText n).
  set (text := if isHeading n && (MaxBlockTextLength <? String.length text0)%nat
               then (sliceTo (MaxBlockTextLength - 3) text0 ++ "...")%string
               else text0).
  assert (Hhead : isHeading n = true -> String.length text <= MaxBlockTextLength).
  { intros Hh. subst text. rewrite Hh. simpl andb.
    destruct (Nat.ltb_spec MaxBlockTextLength (String.length text0)) as [Hlt|Hle].
    - rewrite length_append, length_sliceTo by (unfold MaxBlockTextLength in *; lia).
      unfold MaxBlockTextLength. simpl. lia.
    - exact Hle. }
  intros Hin. apply rangeChunks_In in Hin. destruct Hin as (chunk & Hin & ->).
  constructor; [|constructor].
  destruct (isHeading n) eqn:Hh; simpl negb in Hin; simpl andb in Hin.
  - destruct Hin as [<- | []]. now apply Hhead.
  - destruct (Nat.ltb_spec MaxBlockTextLength (String.length text)) as [Hlt|Hle].
    + assert (Hpos : 0 < MaxBlockTextLength) by (unfold MaxBlockTextLength; lia).
      destruct (splitTextIntoChunks_chunks text _ Hpos)
        as (chunks & E & _ & Hlong & _).
      rewrite E in Hin.
      destruct (Hlong Hlt) as (full & last & -> & _ & Hfull & Hlast).
      apply in_app_or in Hin. destruct Hin as [Hin | [<- | []]]; [|lia].
      rewrite Forall_forall in Hfull. rewrite (Hfull _ Hin). lia.
    + destruct Hin as [<- | []]. exact Hle.
Qed.

End ConverterFacts.

Section TraversalFacts.
Import html notion.
Context {strings : StringsPkg}.

Lemma fold_f_app (children : list Node) :
  Forall (fun c => forall blocks, f c blocks = blocks ++ f c []) children ->
  forall blocks,
    fold_left (fun blocks c => f c blocks) children blocks
    = blocks ++ flat_map (fun c => f c []) children.
Proof.
  induction 1 as [|c cs Hc _ IH]; intros blocks; simpl.
  - now rewrite app_nil_r.
  - rewrite IH, Hc, <- app_assoc. reflexivity.
Qed.

(** [f] only appends to the slice it is given. *)
Lemma f_app (n : Node) : forall blocks, f n blocks = blocks ++ f n [].
Proof.
  induction n as [ty data attr children IH] using Node_tree_ind.
  intros blocks. simpl.
  rewrite !(fold_f_app children IH).
  destruct (ty =t? ElementNode); simpl; now rewrite ?app_nil_r, ?app_assoc.
Qed.

(** [f] converts the node when it is an element and then visits every
    child, whatever the node was converted to. *)
Lemma f_unfold (n : Node) (blocks : list Block) :
  f n blocks
  = blocks
    ++ (if html.Type_ n =t? ElementNode then convertNodeToBlocks n else [])
    ++ flat_map (fun c => f c []) (html.Children n).
Proof.
  destruct n as [ty data attr children]. simpl.
  rewrite (fold_f_app children).
  - destruct (ty =t? ElementNode); simpl; now rewrite ?app_nil_r, ?app_assoc.
  - apply Forall_forall. intros c _. apply f_app.
Qed.

(** Every block [f] collects was made by [convertNodeToBlocks] from some
    node. *)
Lemma f_In (b : Block) (n : Node) :
  In b (f n []) -> exists m, In b (convertNodeToBlocks m).
Proof.
  induction n as [ty data attr children IH] using Node_tree_ind.
  rewrite f_unfold. simpl. intros Hin.
  apply in_app_or in Hin. destruct Hin as [Hin | Hin].
  - destruct (ty =t? ElementNode); [eauto | destruct Hin].
  - apply in_flat_map in Hin. destruct Hin as (c & Hc & Hin).
    rewrite Forall_forall in IH. now apply (IH c Hc).
Qed.

(** C1.  When the input parses, every block [HTMLToNotionBlocks] returns
    carries rich text of at most [MaxBlockTextLength] (2000) bytes per
    run: long texts are split into chunks, long headings are cut. *)
Theorem C1_export_blocks_bounded {htmlpkg : html.Pkg}
        (htmlContent : string) (blocks : list Block) :
  HTMLToNotionBlocks htmlContent = Ok blocks ->
  Forall (fun b =>
            Forall (fun s => String.length s <= MaxBlockTextLength) (blockTexts b))
         blocks.
Proof.
  unfold HTMLToNotionBlocks.
  destruct (Parse htmlContent) as [doc | err]; [|discriminate].
  intros H. injection H as <-.
  assert (Hf : Forall (fun b =>
              Forall (fun s => String.length s <= MaxBlockTextLength) (blockTexts b))
            (f doc [])).
  { apply Forall_forall. intros b Hin.
    destruct (f_In b doc Hin) as (m & Hm).
    now apply (convertNodeToBlocks_bounded m). }
  destruct (List.length (f doc []) =? 0)%nat; [|exact Hf].
  apply Forall_app. split; [exact Hf|].
  constructor; [|constructor].
  constructor; [|constructor]. simpl. unfold MaxBlockTextLength. lia.
Qed.

(** On the tags the converter splits, the texts of the blocks made for a
    node are the chunks of its text. *)
Lemma convertNodeToBlocks_split (n : Node) (mk : list RichText -> Block) :
  (forall rt, switchData n rt = Append (mk rt)) ->
  isHeading n = false ->
  MaxBlockTextLength < String.length (extractText n) ->
  exists chunks,
    splitTextIntoChunks (extractText n) MaxBlockTextLength = Some chunks
    /\ convertNodeToBlocks n
       = map (fun chunk => mk [mkRichText (mkText chunk)]) chunks
    /\ joinStrings chunks = extractText n.
Proof.
  intros Hmk Hh Hlong.
  assert (Hpos : 0 < MaxBlockTextLength) by (unfold MaxBlockTextLength; lia).
  destruct (splitTextIntoChunks_chunks (extractText n) _ Hpos)
    as (chunks & E & _ & _ & Hj).
  exists chunks. split; [exact E|]. split; [|exact Hj].
  unfold convertNodeToBlocks.
  destruct (String.eqb_spec (extractText n) "") as [He|_].
  { rewrite He in Hlong. simpl in Hlong. lia. }
  rewrite Hh. simpl andb. simpl negb.
  apply Nat.ltb_lt in Hlong. rewrite Hlong, E.
  now rewrite (rangeChunks_Append _ _ Hmk).
Qed.

End TraversalFacts.

Section ExportClaims.
Import html notion examples.

Lemma C1_export_blocks_bounded_witness :
  exists blocks,
    @HTMLToNotionBlocks asciiStrings plainHtml helloTitle = Ok blocks
    /\ Forall (fun b =>
                 Forall (fun s => String.length s <= MaxBlockTextLength)
                        (blockTexts b))
              blocks.
Proof.
  eexists. split; [reflexivity|].
  apply (@C1_export_blocks_bounded asciiStrings plainHtml helloTitle).
  reflexivity.
Defined.

(** The tags for which the [switch] builds a block and which are not
    headings. *)
Lemma switchData_split_tags {strings : StringsPkg} (n : Node) :
  Data n = "p" \/ Data n = "li" \/ Data n = "blockquote"
  \/ Data n = "pre" \/ Data n = "code" ->
  isHeading n = false
  /\ exists mk : list RichText -> Block,
      (forall rt, switchData n rt = Append (mk rt))
      /\ (forall rt, blockTexts (mk rt) = map runText rt).
Proof.
  unfold isHeading, switchData.
  intros [E | [E | [E | [E | E]]]]; rewrite E; simpl; (split; [reflexivity|]).
  - exists paragraphBlock. split; intros; [reflexivity | block_texts].
  - exists bulletedListItemBlock. split; intros; [reflexivity | block_texts].
  - exists quoteBlock. split; intros; [reflexivity | block_texts].
  - exists codeBlock. split; intros; [reflexivity | block_texts].
  - exists codeBlock. split; intros; [reflexivity | block_texts].
Qed.

Lemma flat_map_blockTexts_mk (mk : list RichText -> Block) (chunks : list string) :
  (forall rt, blockTexts (mk rt) = map runText rt) ->
  flat_map blockTexts (map (fun chunk => mk [mkRichText (mkText chunk)]) chunks)
  = chunks.
Proof.
  intros Htexts. induction chunks as [|chunk rest IH]; simpl; [reflexivity|].
  now rewrite Htexts, IH.
Qed.

(** A heading with a long text becomes one block: the first 1997 bytes
    and three dots. *)
Lemma convertNodeToBlocks_heading {strings : StringsPkg} (n : Node) :
  isHeading n = true ->
  MaxBlockTextLength < String.length (extractText n) ->
  flat_map blockTexts (convertNodeToBlocks n)
  = [(sliceTo (MaxBlockTextLength - 3) (extractText n) ++ "...")%string].
Proof.
  intros Hh Hlong.
  assert (exists mk : list RichText -> Block,
             (forall rt, switchData n rt = Append (mk rt))
             /\ (forall rt, blockTexts (mk rt) = map runText rt))
    as (mk & Hmk & Htexts).
  { unfold isHeading in Hh. unfold switchData.
    destruct (Data n =? "h1");
      [exists heading1Block; split; intros; [reflexivity | block_texts]|].
    destruct (Data n =? "h2");
      [exists heading2Block; split; intros; [reflexivity | block_texts]|].
    destruct (Data n =? "h3");
      [exists heading3Block; split; intros; [reflexivity | block_texts]|].
    discriminate. }
  unfold convertNodeToBlocks.
  destruct (String.eqb_spec (extractText n) "") as [He|_].
  { rewrite He in Hlong. simpl in Hlong. lia. }
  rewrite Hh. simpl andb. simpl negb.
  apply Nat.ltb_lt in Hlong. rewrite Hlong.
  rewrite (rangeChunks_Append _ _ Hmk). simpl. now rewrite Htexts.
Qed.

(** C2, as amended.  For a node with tag p, li, blockquote, pre or code
    whose extracted text is longer than [MaxBlockTextLength], the texts
    of the blocks made for it, concatenated in order, are the extracted
    text.  For a heading (h1, h2, h3) there is one block, holding the
    first 1997 bytes of the text and three dots. *)
Theorem C2_chunks_rebuild_text {strings : StringsPkg} (n : Node) :
  MaxBlockTextLength < String.length (extractText n) ->
  (Data n = "p" \/ Data n = "li" \/ Data n = "blockquote"
   \/ Data n = "pre" \/ Data n = "code" ->
   joinStrings (flat_map blockTexts (convertNodeToBlocks n)) = extractText n)
  /\ (isHeading n = true ->
      flat_map blockTexts (convertNodeToBlocks n)
      = [(sliceTo (MaxBlockTextLength - 3) (extractText n) ++ "...")%string]).
Proof.
  intros Hlong. split.
  - intros Htag.
    destruct (switchData_split_tags n Htag) as (Hh & mk & Hmk & Htexts).
    destruct (convertNodeToBlocks_split n mk Hmk Hh Hlong) as (chunks & _ & -> & Hj).
    now rewrite (flat_map_blockTexts_mk mk chunks Htexts).
  - intros Hh. now apply convertNodeToBlocks_heading.
Qed.

Lemma C2_chunks_rebuild_text_witness :
  joinStrings (flat_map blockTexts (@convertNodeToBlocks asciiStrings longParagraph))
  = @extractText asciiStrings longParagraph.
Proof.
  apply (@C2_chunks_rebuild_text asciiStrings longParagraph).
  - apply Nat.ltb_lt. vm_compute. reflexivity.
  - left. reflexivity.
Defined.

(** C2 as stated fails: h1 and td are block tags, and for a text of 2001
    bytes the heading keeps 1997 of them and the cell yields no block. *)
Lemma C2_counterexample :
  translator.isTranslatableBlock longHeading = true
  /\ translator.isTranslatableBlock longCell = true
  /\ String.length (@extractText asciiStrings longHeading) = 2001
  /\ String.length (@extractText asciiStrings longCell) = 2001
  /\ joinStrings (flat_map blockTexts (@convertNodeToBlocks asciiStrings longHeading))
     <> @extractText asciiStrings longHeading
  /\ joinStrings (flat_map blockTexts (@convertNodeToBlocks asciiStrings longCell))
     <> @extractText asciiStrings longCell.
Proof.
  split; [reflexivity|]. split; [reflexivity|].
  split; [vm_compute; reflexivity|]. split; [vm_compute; reflexivity|].
  split; intros H; apply (f_equal String.length) in H; vm_compute in H;
    discriminate H.
Qed.

(** C9.  The branch of [convertNodeToBlocks] that turns a text node into
    a paragraph is never reached from [HTMLToNotionBlocks]: [f] converts
    element nodes only, so a text node outside every converted element
    yields no block.  For the input [hello] the export is the empty
    place-holder paragraph, although the converter, given the text node,
    builds the paragraph. *)
Theorem C9_bare_text_dropped :
  (forall (strings : StringsPkg) (s : string) (blocks : list Block),
      f (text s) blocks = blocks)
  /\ @convertNodeToBlocks asciiStrings (text "hello")
     = [paragraphBlock [mkRichText (mkText "hello")]]
  /\ @f asciiStrings bareTextDoc [] = []
  /\ @HTMLToNotionBlocks asciiStrings plainHtml bareText
     = Ok [paragraphBlock [mkRichText (mkText "")]].
Proof.
  split; [reflexivity|]. split; [reflexivity|]. split; reflexivity.
Qed.

(** C10.  [f] converts every element node and then visits all of its
    children, also when the node itself was converted; for a p inside a
    blockquote the text of the p is exported twice, in the quote block
    and in the paragraph block. *)
Theorem C10_nested_blocks_duplicated :
  (forall (strings : StringsPkg) (n : Node) (blocks : list Block),
      f n blocks
      = blocks
        ++ (if html.Type_ n =t? ElementNode then convertNodeToBlocks n else [])
        ++ flat_map (fun c => f c []) (html.Children n))
  /\ @extractText asciiStrings (elem "p" [text "hi"]) = "hi"
  /\ @HTMLToNotionBlocks asciiStrings plainHtml quoted
     = Ok [quoteBlock [mkRichText (mkText "hi")];
           paragraphBlock [mkRichText (mkText "hi")]].
Proof.
  split; [intros; apply f_unfold|]. split; reflexivity.
Qed.

End ExportClaims.

Section TranslatorFacts.
Import html translator.
Context {strings : StringsPkg} {htmlpkg : html.Pkg}.
Context {World : Type} {T : Translator World}.
Variable targetLang : string.

Abbreviation traverse := (traverseAndTranslate targetLang).
Abbreviation children_loop := (traverseChildren targetLang).

(** [traverseAndTranslate], with its loop written as [traverseChildren]. *)
Lemma traverseAndTranslate_unfold (n : Node) (st : State World) :
  traverse n st
  = if html.Type_ n =t? ElementNode then
      if isCodeBlock n then (None, WriteString (Render n) st)
      else if isTranslatableBlock n then translateBlock targetLang n st
      else children_loop (html.Children n) st
    else children_loop (html.Children n) st.
Proof.
  destruct n as [ty data attr children]. simpl.
  assert (Hloop : forall cs s,
             (fix loop (cs : list Node) (st : State World) {struct cs} :=
                match cs with
                | [] => (None, st)
                | c :: cs' =>
                    match traverse c st with
                    | (Some err, st) => (Some err, st)
                    | (None, st) => loop cs' st
                    end
                end) cs s = children_loop cs s).
  { induction cs as [|c cs IH]; intros s; simpl; [reflexivity|].
    destruct (traverse c s) as [[err|] s']; [reflexivity | apply IH]. }
  now rewrite Hloop.
Qed.

(** The two tag tables are disjoint. *)
Lemma translatable_not_code (n : Node) :
  isTranslatableBlock n = true -> isCodeBlock n = false.
Proof.
  unfold isTranslatableBlock, isCodeBlock, blockTags, codeTags.
  destruct (html.Type_ n =t? ElementNode); simpl; [|discriminate].
  intros H.
  repeat (apply orb_true_iff in H; destruct H as [H | H]);
    apply String.eqb_eq in H; rewrite H; reflexivity.
Qed.

Lemma translatable_element (n : Node) :
  isTranslatableBlock n = true -> (html.Type_ n =t? ElementNode) = true.
Proof.
  unfold isTranslatableBlock.
  destruct (html.Type_ n =t? ElementNode); simpl; [reflexivity | discriminate].
Qed.

Lemma code_element (n : Node) :
  isCodeBlock n = true -> (html.Type_ n =t? ElementNode) = true.
Proof.
  unfold isCodeBlock.
  destruct (html.Type_ n =t? ElementNode); simpl; [reflexivity | discriminate].
Qed.

(** At a translatable block the traversal does [translateBlock] and does
    not look at the children. *)
Lemma traverse_translatable (n : Node) (st : State World) :
  isTranslatableBlock n = true ->
  traverse n st = translateBlock targetLang n st.
Proof.
  intros Hb. rewrite traverseAndTranslate_unfold.
  now rewrite (translatable_element n Hb), (translatable_not_code n Hb), Hb.
Qed.

(** A code block is written out as it is, and the translation service is
    not called. *)
Lemma traverse_code (n : Node) (st : State World) :
  isCodeBlock n = true ->
  traverse n st = (None, WriteString (Render n) st).
Proof.
  intros Hc. rewrite traverseAndTranslate_unfold.
  now rewrite (code_element n Hc), Hc.
Qed.

(** A translatable block without text: nothing is written, no call is
    made, and the children are not visited. *)
Lemma traverse_empty_block (n : Node) (st : State World) :
  isTranslatableBlock n = true ->
  TrimSpace (extractText n) = "" ->
  traverse n st = (None, st).
Proof.
  intros Hb He. rewrite (traverse_translatable n st Hb).
  unfold translateBlock. now rewrite He.
Qed.

(** No path through [traverseAndTranslate] returns an error. *)
Lemma traverse_no_error (n : Node) :
  forall st, fst (traverse n st) = None.
Proof.
  induction n as [ty data attr children IH] using Node_tree_ind.
  intros st. rewrite traverseAndTranslate_unfold.
  assert (Hloop : forall s, fst (children_loop children s) = None).
  { clear st. induction IH as [|c cs Hc _ IHcs]; intros s; simpl; [reflexivity|].
    specialize (Hc s). destruct (traverse c s) as [[err|] s']; simpl in Hc;
      [discriminate | apply IHcs]. }
  simpl html.Type_. simpl html.Children.
  destruct (ty =t? ElementNode); [|apply Hloop].
  destruct (isCodeBlock _); [reflexivity|].
  destruct (isTranslatableBlock _); [|apply Hloop].
  unfold translateBlock.
  destruct (negb _); [|reflexivity].
  destruct (callTranslate _ _ _) as [[translated | err] st']; reflexivity.
Qed.

(** [TranslateHTML] never returns an error, on either path. *)
Lemma TranslateHTML_no_error {fallback : FallbackPkg}
      (htmlContent : string) (w : World) :
  snd (fst (TranslateHTML targetLang htmlContent w)) = None.
Proof.
  unfold TranslateHTML.
  destruct (Parse htmlContent) as [doc | err]; [|reflexivity].
  pose proof (traverse_no_error doc (mkState "" w)) as H.
  destruct (traverse doc (mkState "" w)) as [[err|] st]; simpl in H;
    [discriminate | reflexivity].
Qed.

(** C6.  At a translatable block with text, when [Translate] fails the
    traversal has written the serialisation of the block and nothing
    else, and it reports no error: the loop over the siblings goes on
    with the nodes that follow, and [TranslateHTML] as a whole returns
    its output without an error. *)
Theorem C6_failed_translation_keeps_original
        (n : Node) (st : State World) (e : error) (w' : World) :
  isTranslatableBlock n = true ->
  TrimSpace (extractText n) <> "" ->
  Translate (TrimSpace (extractText n)) targetLang (world st) = (Err e, w') ->
  traverse n st = (None, mkState (result_ st ++ Render n)%string w')
  /\ (forall rest,
         children_loop (n :: rest) st
         = children_loop rest (mkState (result_ st ++ Render n)%string w'))
  /\ (forall (fallback : FallbackPkg) htmlContent w,
         snd (fst (TranslateHTML targetLang htmlContent w)) = None).
Proof.
  intros Hb Htext Hfail.
  assert (E : traverse n st = (None, mkState (result_ st ++ Render n)%string w')).
  { rewrite (traverse_translatable n st Hb). unfold translateBlock.
    apply String.eqb_neq in Htext. rewrite Htext. simpl negb. cbv iota.
    unfold callTranslate, WriteString. simpl. now rewrite Hfail. }
  split; [exact E|]. split; [|intros; apply TranslateHTML_no_error].
  intros rest. simpl. now rewrite E.
Qed.

End TranslatorFacts.

Section OpaqueFacts.
Import html translator.
Context {strings : StringsPkg} {htmlpkg : html.Pkg}.
Context {World : Type} {T : Translator World}.
Variable targetLang : string.

Abbreviation traverse' := (traverseAndTranslate targetLang).
Abbreviation children_loop' := (traverseChildren targetLang).

Lemma redact_Type (n : Node) : html.Type_ (redact n) = html.Type_ n.
Proof. destruct n as [ty data attr children]. simpl. now destruct (isCodeBlock _). Qed.

Lemma redact_Data (n : Node) : html.Data (redact n) = html.Data n.
Proof. destruct n as [ty data attr children]. simpl. now destruct (isCodeBlock _). Qed.

Lemma redact_isCodeBlock (n : Node) : isCodeBlock (redact n) = isCodeBlock n.
Proof. unfold isCodeBlock. now rewrite redact_Type, redact_Data. Qed.

Lemma redact_isTranslatableBlock (n : Node) :
  isTranslatableBlock (redact n) = isTranslatableBlock n.
Proof. unfold isTranslatableBlock. now rewrite redact_Type, redact_Data. Qed.

Lemma redact_Children (n : Node) :
  isCodeBlock n = false ->
  html.Children (redact n) = map redact (html.Children n).
Proof.
  destruct n as [ty data attr children]. simpl. intros Hc.
  unfold isCodeBlock in Hc. simpl in Hc. unfold isCodeBlock. simpl.
  now rewrite Hc.
Qed.

Lemma extractText_unfold (n : Node) :
  extractText n
  = if html.Type_ n =t? TextNode then html.Data n
    else if isCodeBlock n then ""
    else joinStrings (map extractText (html.Children n)).
Proof. destruct n; reflexivity. Qed.

(** The text of a code block is not extracted. *)
Lemma extractText_code (n : Node) : isCodeBlock n = true -> extractText n = "".
Proof.
  intros Hc. rewrite extractText_unfold, Hc.
  unfold isCodeBlock in Hc.
  destruct (html.Type_ n); simpl in *; try discriminate; reflexivity.
Qed.

(** The extracted text does not depend on what is inside code blocks. *)
Lemma extractText_redact (n : Node) : extractText (redact n) = extractText n.
Proof.
  induction n as [ty data attr children IH] using Node_tree_ind.
  rewrite (extractText_unfold (redact _)), (extractText_unfold (mkNode _ _ _ _)).
  rewrite redact_Type, redact_Data, redact_isCodeBlock.
  destruct (html.Type_ _ =t? TextNode); [reflexivity|].
  destruct (isCodeBlock (mkNode ty data attr children)) eqn:Hc; [reflexivity|].
  rewrite (redact_Children _ Hc). simpl html.Children.
  rewrite map_map. f_equal.
  apply map_ext_in. intros c Hin.
  rewrite Forall_forall in IH. now apply IH.
Qed.

(** The translation service cannot tell a document from the same
    document with emptied code blocks: it is left in the same state. *)
Lemma traverse_redact (n : Node) :
  forall st1 st2 : State World,
    world st1 = world st2 ->
    world (snd (traverse' (redact n) st1)) = world (snd (traverse' n st2)).
Proof.
  induction n as [ty data attr children IH] using Node_tree_ind.
  intros st1 st2 Hw.
  rewrite !traverseAndTranslate_unfold.
  rewrite redact_Type, redact_isCodeBlock, redact_isTranslatableBlock.
  assert (Hloop : isCodeBlock (mkNode ty data attr children) = false ->
             world (snd (children_loop'
                           (html.Children (redact (mkNode ty data attr children))) st1))
             = world (snd (children_loop'
                             (html.Children (mkNode ty data attr children)) st2))).
  { intros Hc. rewrite (redact_Children _ Hc). simpl html.Children.
    clear Hc. revert st1 st2 Hw.
    induction IH as [|c cs Hc _ IHcs]; intros st1 st2 Hw; simpl; [exact Hw|].
    specialize (Hc st1 st2 Hw).
    pose proof (traverse_no_error targetLang (redact c) st1) as E1.
    pose proof (traverse_no_error targetLang c st2) as E2.
    destruct (traverse' (redact c) st1) as [[err|] s1]; [discriminate|].
    destruct (traverse' c st2) as [[err|] s2]; [discriminate|].
    simpl in Hc. now apply IHcs. }
  change (html.Type_ (mkNode ty data attr children)) with ty.
  destruct (ty =t? ElementNode) eqn:Hty.
  - destruct (isCodeBlock (mkNode ty data attr children)) eqn:Hc; [exact Hw|].
    destruct (isTranslatableBlock (mkNode ty data attr children)); [|now apply Hloop].
    unfold translateBlock. rewrite extractText_redact.
    destruct (negb _); [|exact Hw].
    unfold callTranslate, WriteString. simpl. rewrite Hw.
    destruct (Translate _ _ _) as [[translated | err] w]; reflexivity.
  - apply Hloop. unfold isCodeBlock. simpl. now rewrite Hty.
Qed.

End OpaqueFacts.

Section OpaqueClaims.
Import html examples.

(** In the export, kbd, samp and var elements are not converted. *)
Lemma convertNodeToBlocks_skipped {strings : StringsPkg} (n : Node) :
  html.Type_ n = ElementNode ->
  html.Data n = "kbd" \/ html.Data n = "samp" \/ html.Data n = "var" ->
  notion.convertNodeToBlocks n = [].
Proof.
  intros Hty Htag.
  assert (Hc : forall rt, notion.switchData n rt = notion.Continue).
  { intros rt. unfold notion.switchData. rewrite Hty.
    destruct Htag as [E | [E | E]]; rewrite E; reflexivity. }
  unfold notion.convertNodeToBlocks.
  destruct (notion.extractText n =? ""); [reflexivity|].
  now apply rangeChunks_Continue.
Qed.

(** C4, as amended.  Translation: a pre, code, kbd, samp or var element
    the traversal reaches is written as its serialisation and the
    translation service is not called; its text is never extracted, and
    the service is asked for exactly the same texts when the content of
    every such element is removed from the document.  Export: pre and
    code are converted like the other tags, their extracted text being
    split into chunks above [MaxBlockTextLength]; kbd, samp and var
    elements yield no block. *)
Theorem C4_code_blocks {strings : StringsPkg} {htmlpkg : html.Pkg} (m : Node) :
  (forall (World : Type) (T : translator.Translator World) (targetLang : string)
          (st : translator.State World),
      translator.isCodeBlock m = true ->
      translator.traverseAndTranslate targetLang m st
      = (None, translator.WriteString (Render m) st))
  /\ (translator.isCodeBlock m = true -> translator.extractText m = "")
  /\ translator.extractText (translator.redact m) = translator.extractText m
  /\ (forall (World : Type) (T : translator.Translator World) (targetLang : string)
             (w : World),
         snd (translator.world
                (snd (translator.traverseAndTranslate
                        (translator := translator.logged T) targetLang
                        (translator.redact m) (translator.mkState "" (w, [])))))
         = snd (translator.world
                  (snd (translator.traverseAndTranslate
                          (translator := translator.logged T) targetLang
                          m (translator.mkState "" (w, []))))))
  /\ (html.Data m = "pre" \/ html.Data m = "code" ->
      notion.MaxBlockTextLength < String.length (notion.extractText m) ->
      exists chunks,
        notion.splitTextIntoChunks (notion.extractText m) notion.MaxBlockTextLength
        = Some chunks
        /\ notion.convertNodeToBlocks m
           = map (fun chunk =>
                    notion.codeBlock [notion.mkRichText (notion.mkText chunk)])
                 chunks)
  /\ (html.Type_ m = ElementNode ->
      html.Data m = "kbd" \/ html.Data m = "samp" \/ html.Data m = "var" ->
      notion.convertNodeToBlocks m = []).
Proof.
  split; [intros; now apply traverse_code|].
  split; [apply extractText_code|].
  split; [apply extractText_redact|].
  split.
  { intros World T targetLang w. f_equal.
    now apply (traverse_redact (T := translator.logged T)). }
  split; [|apply convertNodeToBlocks_skipped].
  intros Htag Hlong.
  assert (Hmk : forall rt, notion.switchData m rt = notion.Append (notion.codeBlock rt)).
  { intros rt. unfold notion.switchData.
    destruct Htag as [E | E]; rewrite E; reflexivity. }
  assert (Hh : notion.isHeading m = false).
  { unfold notion.isHeading. destruct Htag as [E | E]; rewrite E; reflexivity. }
  destruct (convertNodeToBlocks_split m _ Hmk Hh Hlong) as (chunks & E & Hb & _).
  exists chunks. split; assumption.
Qed.

(** C4 as stated fails in the export: a pre element with 2001 bytes of
    text is split into two code blocks, of 2000 bytes and of 1 byte, and
    the content of a kbd element is in no block at all. *)
Lemma C4_counterexample :
  translator.isCodeBlock longPre = true
  /\ map (fun b => (notion.Type_ b, map String.length (notion.blockTexts b)))
         (@notion.convertNodeToBlocks asciiStrings longPre)
     = [("code", [2000]); ("code", [1])]
  /\ translator.isCodeBlock (elem "kbd" [text "x"]) = true
  /\ @notion.f asciiStrings (document [elem "kbd" [text "x"]]) [] = [].
Proof.
  split; [reflexivity|]. split; [vm_compute; reflexivity|].
  split; reflexivity.
Qed.

(** The example of the specification: [<pre>x=1</pre>] comes back
    unchanged and no translation is requested. *)
Lemma pre_unchanged (fallback : translator.FallbackPkg) (targetLang : string) :
  let pkg := {| Parse := fun _ => Ok (document [elem "pre" [text "x=1"]]);
                Render := renderPlain;
                EscapeString := fun s => s |} in
  @translator.TranslateHTML asciiStrings pkg fallback nat bracketing
                            targetLang "<pre>x=1</pre>" 0
  = (("<pre>x=1</pre>", None), 0).
Proof. reflexivity. Qed.

(** C5.  A translatable block whose own text is empty is passed over
    together with its children: for [<div><pre>x=1</pre></div>] the
    traversal writes nothing, whereas visiting the children of the div
    would have written the pre element. *)
Theorem C5_empty_block_drops_children
        (htmlpkg : html.Pkg) (World : Type) (T : translator.Translator World)
        (targetLang : string) (st : translator.State World) :
  translator.isTranslatableBlock divPreNode = true
  /\ @TrimSpace asciiStrings (translator.extractText divPreNode) = ""
  /\ translator.traverseAndTranslate (strings := asciiStrings) targetLang
                                     divPreNode st
     = (None, st)
  /\ translator.traverseAndTranslate (strings := asciiStrings) targetLang
                                     divPreDoc st
     = (None, st)
  /\ translator.traverseChildren (strings := asciiStrings) targetLang
                                 (html.Children divPreNode) st
     = (None, translator.WriteString (Render (elem "pre" [text "x=1"])) st).
Proof.
  split; [reflexivity|]. split; [reflexivity|].
  split; [reflexivity|]. split; reflexivity.
Qed.

Lemma C6_failed_translation_keeps_original_witness :
  translator.traverseAndTranslate
    (strings := asciiStrings) (htmlpkg := plainHtml) (translator := failing)
    "en" (elem "p" [text "hello"]) (translator.mkState "" 0)
  = (None, translator.mkState "<p>hello</p>" 1).
Proof.
  apply (@C6_failed_translation_keeps_original
           asciiStrings plainHtml nat failing "en"
           (elem "p" [text "hello"]) (translator.mkState "" 0)
           (errorString "service unavailable") 1).
  - reflexivity.
  - vm_compute. discriminate.
  - reflexivity.
Defined.

End OpaqueClaims.

Section BatchFacts.
Import notion.
Context {A : Type}.
Variable size : nat.
Hypothesis size_pos : 0 < size.

Lemma cutInto_nil : cutInto size (@nil A) [].
Proof. repeat split; constructor. Qed.

(** A first batch in front of a cut of what follows it. *)
Lemma cutInto_cons (l : list A) (batches : list (list A)) :
  l <> [] ->
  cutInto size (skipn size l) batches ->
  cutInto size l (firstn size l :: batches).
Proof.
  intros Hl (Hcat & Hsizes & Hfull).
  assert (Hfirst : 0 < List.length (firstn size l) <= size).
  { rewrite length_firstn. destruct l; [congruence | simpl; lia]. }
  split; [|split].
  - simpl. rewrite Hcat. apply firstn_skipn.
  - constructor; assumption.
  - destruct batches as [|b batches]; [constructor|].
    change (removelast (firstn size l :: b :: batches))
      with (firstn size l :: removelast (b :: batches)).
    constructor; [|exact Hfull].
    pose proof (Forall_inv Hsizes) as Hb.
    assert (Hskip : 0 < List.length (skipn size l)).
    { rewrite <- Hcat. simpl. rewrite length_app. simpl in Hb. lia. }
    rewrite length_skipn in Hskip. rewrite length_firstn. lia.
Qed.

(** Every list can be cut. *)
Lemma cutInto_exists (l : list A) : exists batches, cutInto size l batches.
Proof.
  remember (List.length l) as k eqn:Hk. revert l Hk.
  induction k as [k IH] using lt_wf_ind. intros l Hk.
  destruct l as [|a l]; [exists []; apply cutInto_nil|].
  destruct (IH (List.length (skipn size (a :: l)))) with (l := skipn size (a :: l))
    as (batches & Hcut); [|reflexivity|].
  - rewrite length_skipn. subst k. simpl List.length. lia.
  - exists (firstn size (a :: l) :: batches).
    apply cutInto_cons; [discriminate | exact Hcut].
Qed.

(** The number of batches of a cut: the length divided by the batch
    size, rounded up. *)
Lemma cutInto_count (l : list A) (batches : list (list A)) :
  cutInto size l batches ->
  List.length batches = (List.length l + (size - 1)) / size.
Proof.
  revert l. induction batches as [|b batches IH]; intros l (Hcat & Hsizes & Hfull).
  - simpl in Hcat. subst l. simpl. symmetry. apply Nat.div_small. lia.
  - pose proof (Forall_inv Hsizes) as Hb.
    pose proof (Forall_inv_tail Hsizes) as Hrest.
    simpl in Hb. rewrite <- Hcat. clear Hcat.
    destruct batches as [|b' batches].
    + simpl. rewrite app_nil_r.
      apply (Nat.div_unique _ _ 1 (List.length b - 1)); lia.
    + change (removelast (b :: b' :: batches))
        with (b :: removelast (b' :: batches)) in Hfull.
      pose proof (Forall_inv Hfull) as Hbfull.
      pose proof (Forall_inv_tail Hfull) as Hfull'.
      assert (Hcut : cutInto size (concat (b' :: batches)) (b' :: batches)).
      { split; [reflexivity | split; assumption]. }
      specialize (IH _ Hcut).
      change (List.length (b :: b' :: batches))
        with (S (List.length (b' :: batches))).
      rewrite IH.
      change (concat (b :: b' :: batches)) with (b ++ concat (b' :: batches)).
      rewrite length_app, Hbfull.
      replace (size + List.length (concat (b' :: batches)) + (size - 1))
        with (1 * size + (List.length (concat (b' :: batches)) + (size - 1)))
        by lia.
      rewrite Nat.div_add_l by lia. lia.
Qed.

Lemma cutInto_bounded (l : list A) (batches : list (list A)) :
  cutInto size l batches ->
  Forall (fun b => List.length b <= size) batches.
Proof.
  intros (_ & Hsizes & _).
  eapply Forall_impl; [|exact Hsizes]. simpl. intros b Hb. lia.
Qed.

End BatchFacts.

Section ClientFacts.
Import notion.
Context {strings : StringsPkg} {htmlpkg : html.Pkg}.
Context {World : Type} {env : Env World}.

Lemma firstn_length_app {A : Type} (l1 l2 : list A) :
  firstn (List.length l1) (l1 ++ l2) = l1.
Proof. induction l1 as [|a l1 IH]; simpl; [reflexivity | now rewrite IH]. Qed.

Lemma payloads_send (payload : Payload) (req : Request) (s : Net World) :
  payloads (snd (send payload req s)) = payloads s ++ [payload].
Proof.
  unfold send, payloads. destruct (Do req (world s)) as [r w]. simpl.
  now rewrite map_app.
Qed.

(** [appendBlocksBatch] sends at most one request, carrying the batch;
    when it returns no error, it has sent it. *)
Lemma appendBlocksBatch_payloads (n : NotionClient) (pageID : string)
      (batch : list Block) (s : Net World) :
  (payloads (snd (appendBlocksBatch n pageID batch s)) = payloads s
   /\ fst (appendBlocksBatch n pageID batch s) <> None)
  \/ payloads (snd (appendBlocksBatch n pageID batch s))
     = payloads s ++ [ChildrenMap batch].
Proof.
  unfold appendBlocksBatch.
  destruct (Marshal _) as [jsonData | err]; [|left; split; [reflexivity | discriminate]].
  destruct (NewRequestWithContext _ _ _) as [req | err];
    [|left; split; [reflexivity | discriminate]].
  right.
  pose proof (payloads_send (ChildrenMap batch) (setHeaders n req) s) as Hs.
  destruct (send _ _ s) as [[resp | err] s1]; simpl in Hs; [|exact Hs].
  destruct (ReadAll_Body resp) as [body | err]; [|exact Hs].
  destruct (negb _); exact Hs.
Qed.

(** One turn of the loop of [appendBlocks]. *)
Lemma appendLoop_unfold (n : NotionClient) (pageID : string)
      (blocks : list Block) (i : nat) (s : Net World) :
  appendLoop n pageID blocks i s
  = if (i <? List.length blocks)%nat then
      let end_ := i + maxBlocksPerRequest in
      let end_ := if (List.length blocks <? end_)%nat
                  then List.length blocks else end_ in
      match appendBlocksBatch n pageID (subslice i end_ blocks) s with
      | (Some err, s) => (Some err, s)
      | (None, s) => appendLoop n pageID blocks (i + maxBlocksPerRequest) s
      end
    else (None, s).
Proof.
  rewrite appendLoop_equation_1.
  destruct (lt_dec i (List.length blocks)) as [Hlt | Hge]; simpl.
  - apply Nat.ltb_lt in Hlt. rewrite Hlt. reflexivity.
  - apply Nat.ltb_nlt in Hge. rewrite Hge. reflexivity.
Qed.

(** The batch the loop takes at index [i] is the next
    [maxBlocksPerRequest] blocks, or all that are left. *)
Lemma subslice_batch (blocks : list Block) (i : nat) :
  i < List.length blocks ->
  subslice i (if (List.length blocks <? i + maxBlocksPerRequest)%nat
              then List.length blocks else i + maxBlocksPerRequest) blocks
  = firstn maxBlocksPerRequest (skipn i blocks).
Proof.
  intros Hi. unfold subslice.
  destruct (Nat.ltb_spec (List.length blocks) (i + maxBlocksPerRequest)) as [Hlt | Hge].
  - rewrite !firstn_all2; try reflexivity; rewrite length_skipn; lia.
  - f_equal. lia.
Qed.

(** The requests [appendBlocks] sends carry, in order, the first batches
    of a cut of the blocks from index [i] on, and all its batches when
    no error is returned. *)
Lemma appendLoop_batches (n : NotionClient) (pageID : string)
      (blocks : list Block) :
  forall k i s,
    List.length blocks - i < k ->
    exists done rest : list (list Block),
      payloads (snd (appendLoop n pageID blocks i s))
      = payloads s ++ map ChildrenMap done
      /\ cutInto maxBlocksPerRequest (skipn i blocks) (done ++ rest)
      /\ (fst (appendLoop n pageID blocks i s) = None -> rest = []).
Proof.
  assert (Hpos : 0 < maxBlocksPerRequest) by (unfold maxBlocksPerRequest; lia).
  induction k as [|k IH]; intros i s Hk; [lia|].
  rewrite appendLoop_unfold.
  destruct (Nat.ltb_spec i (List.length blocks)) as [Hi | Hi].
  - cbv zeta. rewrite (subslice_batch blocks i Hi).
    set (batch := firstn maxBlocksPerRequest (skipn i blocks)).
    assert (Hne : skipn i blocks <> []).
    { intros E. apply (f_equal (@List.length _)) in E.
      rewrite length_skipn in E. simpl in E. lia. }
    assert (Hskip : skipn maxBlocksPerRequest (skipn i blocks)
                    = skipn (i + maxBlocksPerRequest) blocks).
    { rewrite skipn_skipn. f_equal. lia. }
    destruct (appendBlocksBatch_payloads n pageID batch s) as [[Hp Hr] | Hp].
    + destruct (appendBlocksBatch n pageID batch s) as [[err|] s1];
        simpl in Hp, Hr; [|congruence].
      destruct (cutInto_exists maxBlocksPerRequest Hpos
                  (skipn maxBlocksPerRequest (skipn i blocks))) as (rest & Hcut).
      exists [], (batch :: rest). simpl.
      split; [now rewrite app_nil_r|].
      split; [now apply cutInto_cons | discriminate].
    + destruct (appendBlocksBatch n pageID batch s) as [[err|] s1]; simpl in Hp.
      * destruct (cutInto_exists maxBlocksPerRequest Hpos
                    (skipn maxBlocksPerRequest (skipn i blocks))) as (rest & Hcut).
        exists [batch], rest. simpl.
        split; [exact Hp|].
        split; [now apply cutInto_cons | discriminate].
      * destruct (IH (i + maxBlocksPerRequest) s1) as (done & rest & Hp' & Hcut & Hrest).
        { unfold maxBlocksPerRequest. lia. }
        exists (batch :: done), rest.
        split; [rewrite Hp', Hp, <- app_assoc; reflexivity|].
        split; [|exact Hrest].
        simpl. apply cutInto_cons; [exact Hpos | exact Hne |].
        now rewrite Hskip.
  - exists [], []. simpl.
    split; [now rewrite app_nil_r|].
    split; [|reflexivity].
    rewrite skipn_all2 by lia. apply cutInto_nil.
Qed.

(** [appendBlocks] has nothing to do for an empty list. *)
Lemma appendBlocks_nil (n : NotionClient) (pageID : string) (s : Net World) :
  appendBlocks n pageID [] s = (None, s).
Proof. unfold appendBlocks. now rewrite appendLoop_unfold. Qed.

(** [postPage] sends at most one request, carrying [initialBlocks]; when
    it returns a page, it has sent it. *)
Lemma postPage_payloads (n : NotionClient) (title : string)
      (initialBlocks : list Block) (s : Net World) :
  exists reqBody,
    Children reqBody = initialBlocks
    /\ ((payloads (snd (postPage n title initialBlocks s)) = payloads s
         /\ forall pageResp, fst (postPage n title initialBlocks s) <> Ok pageResp)
        \/ payloads (snd (postPage n title initialBlocks s))
           = payloads s ++ [PageCreate reqBody]).
Proof.
  exists (mkPageCreateRequest
            (mkParent (DatabaseID n))
            (mkProperties (mkTitleProperty [mkRichText (mkText title)]))
            initialBlocks).
  split; [reflexivity|].
  unfold postPage.
  destruct (Marshal _) as [jsonData | err]; [|left; split; [reflexivity | discriminate]].
  destruct (NewRequestWithContext _ _ _) as [req | err];
    [|left; split; [reflexivity | discriminate]].
  right.
  match goal with
  | |- context [send ?p ?r s] => pose proof (payloads_send p r s) as Hs;
                                 destruct (send p r s) as [[resp | err] s1]
  end; simpl in Hs; [|exact Hs].
  destruct (ReadAll_Body resp) as [body | err]; [|exact Hs].
  destruct (negb _); [exact Hs|].
  destruct (Unmarshal body); exact Hs.
Qed.

End ClientFacts.

Section ClientClaims.
Import notion examples.

Lemma initialBlocks_firstn (blocks : list Block) :
  (if (maxBlocksPerRequest <? List.length blocks)%nat
   then firstn maxBlocksPerRequest blocks else blocks)
  = firstn maxBlocksPerRequest blocks.
Proof.
  destruct (Nat.ltb_spec maxBlocksPerRequest (List.length blocks)) as [Hlt | Hle];
    [reflexivity | now rewrite firstn_all2].
Qed.

(** C7.  Given the [N] blocks of a document, [CreatePage] puts the first
    [min N 100] of them into the page-creation request; the remaining
    blocks, cut in order into batches of 100 (the last possibly
    shorter), make up [ceil (max 0 (N - 100) / 100)] append requests.
    The requests sent are always an initial part of this sequence, and
    the whole of it when [CreatePage] returns without an error. *)
Theorem C7_export_batches
        {strings : StringsPkg} {htmlpkg : html.Pkg}
        {World : Type} {env : Env World}
        (n : NotionClient) (title content : string) (s : Net World)
        (blocks : list Block) :
  HTMLToNotionBlocks content = Ok blocks ->
  exists (reqBody : PageCreateRequest) (batches : list (list Block)),
    Children reqBody
    = firstn (Nat.min (List.length blocks) maxBlocksPerRequest) blocks
    /\ cutInto maxBlocksPerRequest (skipn maxBlocksPerRequest blocks) batches
    /\ Forall (fun b => List.length b <= maxBlocksPerRequest) batches
    /\ List.length batches
       = (List.length blocks - maxBlocksPerRequest + (maxBlocksPerRequest - 1))
         / maxBlocksPerRequest
    /\ (exists k,
           payloads (snd (CreatePage n title content s))
           = payloads s
             ++ firstn k (PageCreate reqBody :: map ChildrenMap batches))
    /\ (snd (fst (CreatePage n title content s)) = None ->
        payloads (snd (CreatePage n title content s))
        = payloads s ++ PageCreate reqBody :: map ChildrenMap batches).
Proof.
  intros Hconv.
  assert (Hpos : 0 < maxBlocksPerRequest) by (unfold maxBlocksPerRequest; lia).
  unfold CreatePage. rewrite Hconv. cbv zeta.
  rewrite initialBlocks_firstn.
  destruct (postPage_payloads n title (firstn maxBlocksPerRequest blocks) s)
    as (reqBody & Hchildren & Hpost).
  assert (Hinit : Children reqBody
                  = firstn (Nat.min (List.length blocks) maxBlocksPerRequest) blocks).
  { rewrite Hchildren.
    destruct (Nat.le_ge_cases (List.length blocks) maxBlocksPerRequest) as [Hle | Hge].
    - rewrite Nat.min_l by exact Hle. now rewrite !firstn_all2.
    - now rewrite Nat.min_r. }
  assert (Hfacts : forall batches,
             cutInto maxBlocksPerRequest (skipn maxBlocksPerRequest blocks) batches ->
             Forall (fun b => List.length b <= maxBlocksPerRequest) batches
             /\ List.length batches
                = (List.length blocks - maxBlocksPerRequest
                   + (maxBlocksPerRequest - 1)) / maxBlocksPerRequest).
  { intros batches Hcut. split; [now apply (cutInto_bounded _ Hpos _ _ Hcut)|].
    rewrite (cutInto_count _ Hpos _ _ Hcut). now rewrite length_skipn. }
  exists reqBody.
  destruct (postPage n title (firstn maxBlocksPerRequest blocks) s)
    as [[pageResp | err] s1]; simpl in Hpost.
  - destruct Hpost as [[_ Hno] | Hp]; [now destruct (Hno pageResp)|].
    destruct (Nat.ltb_spec maxBlocksPerRequest (List.length blocks)) as [Hlt | Hle].
    + destruct (appendLoop_batches n (ID pageResp)
                  (skipn maxBlocksPerRequest blocks)
                  (S (List.length (skipn maxBlocksPerRequest blocks))) 0 s1)
        as (done & rest & Hp' & Hcut & Hrest); [lia|].
      simpl skipn in Hcut. fold (appendBlocks n (ID pageResp)
                                  (skipn maxBlocksPerRequest blocks) s1) in Hp', Hrest.
      exists (done ++ rest).
      destruct (Hfacts _ Hcut) as [Hbound Hcount].
      split; [exact Hinit|]. split; [exact Hcut|].
      split; [exact Hbound|]. split; [exact Hcount|].
      assert (Hsent : forall r s2,
                 appendBlocks n (ID pageResp) (skipn maxBlocksPerRequest blocks) s1
                 = (r, s2) ->
                 payloads s2 = payloads s ++ PageCreate reqBody :: map ChildrenMap done).
      { intros r s2 E. rewrite E in Hp'. simpl in Hp'.
        rewrite Hp', Hp, <- app_assoc. reflexivity. }
      destruct (appendBlocks n (ID pageResp) (skipn maxBlocksPerRequest blocks) s1)
        as [[err|] s2] eqn:Eapp; simpl.
      * split; [|discriminate].
        exists (S (List.length (map ChildrenMap done))).
        rewrite (Hsent _ _ eq_refl), map_app. simpl.
        now rewrite firstn_length_app.
      * rewrite (Hrest eq_refl), app_nil_r.
        split; [|intros _; exact (Hsent _ _ eq_refl)].
        exists (S (List.length (map ChildrenMap done))).
        rewrite (Hsent _ _ eq_refl). simpl. now rewrite firstn_all.
    + assert (Hcut : cutInto maxBlocksPerRequest
                             (skipn maxBlocksPerRequest blocks) []).
      { rewrite skipn_all2 by exact Hle. apply cutInto_nil. }
      exists []. destruct (Hfacts _ Hcut) as [Hbound Hcount].
      split; [exact Hinit|]. split; [exact Hcut|].
      split; [exact Hbound|]. split; [exact Hcount|]. simpl.
      split; [exists 1; exact Hp | intros _; exact Hp].
  - destruct (cutInto_exists maxBlocksPerRequest Hpos
                (skipn maxBlocksPerRequest blocks)) as (batches & Hcut).
    exists batches. destruct (Hfacts _ Hcut) as [Hbound Hcount].
    split; [exact Hinit|]. split; [exact Hcut|].
    split; [exact Hbound|]. split; [exact Hcount|]. simpl.
    split; [|discriminate].
    destruct Hpost as [[Hp _] | Hp].
    + exists 0. simpl. now rewrite app_nil_r.
    + exists 1. exact Hp.
Qed.

Lemma C7_export_batches_witness :
  exists (reqBody : PageCreateRequest) (batches : list (list Block)),
    Children reqBody
    = firstn (Nat.min 250 maxBlocksPerRequest)
             (repeat (paragraphBlock [mkRichText (mkText "x")]) 250)
    /\ List.length batches = 2
    /\ payloads (snd (@CreatePage asciiStrings manyParagraphs nat acceptingStore
                                  exampleClient "title" "content" (mkNet 0 [])))
       = PageCreate reqBody :: map ChildrenMap batches.
Proof.
  destruct (@C7_export_batches asciiStrings manyParagraphs nat acceptingStore
              exampleClient "title" "content" (mkNet 0 [])
              (repeat (paragraphBlock [mkRichText (mkText "x")]) 250))
    as (reqBody & batches & Hinit & _ & _ & Hcount & _ & Hall).
  - vm_compute. reflexivity.
  - exists reqBody, batches.
    split; [exact Hinit|]. split; [exact Hcount|].
    apply Hall. vm_compute. reflexivity.
Defined.

(** C8.  When the page-creation request fails, [CreatePage] returns the
    error and the empty string as URL.  When the page was created and
    appending the remaining blocks fails, [CreatePage] returns the URL of
    the created page together with an error that wraps the one of the
    failed batch.  (An append can only fail when there are more than
    [maxBlocksPerRequest] blocks.) *)
Theorem C8_partial_success
        {strings : StringsPkg} {htmlpkg : html.Pkg}
        {World : Type} {env : Env World}
        (n : NotionClient) (title content : string) (s : Net World)
        (blocks : list Block) :
  HTMLToNotionBlocks content = Ok blocks ->
  (forall err s1,
      postPage n title (firstn maxBlocksPerRequest blocks) s = (Err err, s1) ->
      CreatePage n title content s = (("", Some err), s1))
  /\ (forall pageResp s1 err s2,
         postPage n title (firstn maxBlocksPerRequest blocks) s
         = (Ok pageResp, s1) ->
         appendBlocks n (ID pageResp) (skipn maxBlocksPerRequest blocks) s1
         = (Some err, s2) ->
         CreatePage n title content s
         = ((URL pageResp, Some (Errorf_append err)), s2)
         /\ Error (Errorf_append err)
            = ("page created but failed to append remaining blocks: "
               ++ Error err)%string).
Proof.
  intros Hconv. unfold CreatePage. rewrite Hconv. cbv zeta.
  rewrite initialBlocks_firstn. split.
  - intros err s1 Hpost. now rewrite Hpost.
  - intros pageResp s1 err s2 Hpost Happ. rewrite Hpost.
    split; [|reflexivity].
    destruct (Nat.ltb_spec maxBlocksPerRequest (List.length blocks)) as [Hlt | Hle].
    + now rewrite Happ.
    + rewrite skipn_all2 in Happ by exact Hle.
      rewrite appendBlocks_nil in Happ. discriminate.
Qed.

Lemma C8_partial_success_witness :
  fst (@CreatePage asciiStrings manyParagraphs nat failingAfterFirst
                   exampleClient "title" "content" (mkNet 0 []))
  = (URL examplePage,
     Some (Errorf_append
             (Errorf_status ErrAPICallFailed 500 "overloaded"))).
Proof.
  pose proof (@C8_partial_success asciiStrings manyParagraphs nat
                failingAfterFirst exampleClient "title" "content" (mkNet 0 [])
                (repeat (paragraphBlock [mkRichText (mkText "x")]) 250)
                ltac:(vm_compute; reflexivity)) as [_ Hpartial].
  edestruct Hpartial as [E _]; [vm_compute; reflexivity | vm_compute; reflexivity |].
  rewrite E. reflexivity.
Defined.

End ClientClaims.

(* ================================================================== *)
(** * Further properties of the export converter *)

Section ExportExtras.
Import html notion examples.
Context {strings : StringsPkg}.

(** The block the [switch] builds is one of the seven kinds, around the
    rich text it was given. *)
Lemma switchData_kinds (n : Node) (rt : list RichText) (b : Block) :
  switchData n rt = Append b ->
  b = heading1Block rt \/ b = heading2Block rt \/ b = heading3Block rt
  \/ b = bulletedListItemBlock rt \/ b = quoteBlock rt \/ b = codeBlock rt
  \/ b = paragraphBlock rt.
Proof.
  unfold switchData. cbv zeta.
  repeat match goal with
         | |- context [if ?c then _ else _] => destruct c
         end;
    intros H; try discriminate H; injection H as <-; tauto.
Qed.


Lemma rangeChunks_origin (n : Node) (b : Block) :
  forall textChunks blocks,
    In b (rangeChunks n textChunks blocks) ->
    In b blocks
    \/ exists chunk,
        In chunk textChunks
        /\ switchData n [mkRichText (mkText chunk)] = Append b.
Proof.
  induction textChunks as [|chunk rest IH]; intros blocks Hin; simpl in Hin.
  - now left.
  - destruct (switchData n [mkRichText (mkText chunk)]) as [block| |] eqn:E.
    + destruct (IH _ Hin) as [Hacc | (c & Hc & Hs)].
      * apply in_app_or in Hacc. destruct Hacc as [Hacc | [<- | []]].
        -- now left.
        -- right. exists chunk. split; [now left | exact E].
      * right. exists c. split; [now right | exact Hs].
    + destruct (IH _ Hin) as [Hacc | (c & Hc & Hs)]; [now left|].
      right. exists c. split; [now right | exact Hs].
    + destruct Hin.
Qed.

(** The chunks [convertNodeToBlocks] makes blocks from are neither empty
    nor longer than the limit. *)
Lemma convertNodeToBlocks_origin (n : Node) (b : Block) :
  In b (convertNodeToBlocks n) ->
  exists chunk,
    0 < String.length chunk <= MaxBlockTextLength
    /\ switchData n [mkRichText (mkText chunk)] = Append b.
Proof.
  unfold convertNodeToBlocks.
  destruct (String.eqb_spec (extractText n) "") as [_ | Hne]; [intros []|].
  assert (Hlen : 0 < String.length (extractText n)).
  { destruct (extractText n); [congruence | simpl; lia]. }
  set (text0 := extractText n) in *.
  set (text := if isHeading n && (MaxBlockTextLength <? String.length text0)%nat
               then (sliceTo (MaxBlockTextLength - 3) text0 ++ "...")%string
               else text0).
  assert (Htext : 0 < String.length text
                  /\ (isHeading n = true -> String.length text <= MaxBlockTextLength)).
  { subst text.
    destruct (isHeading n); simpl andb; [|split; [exact Hlen | discriminate]].
    destruct (Nat.ltb_spec MaxBlockTextLength (String.length text0)) as [Hlt | Hle].
    - rewrite length_append, length_sliceTo by (unfold MaxBlockTextLength in *; lia).
      unfold MaxBlockTextLength. simpl. split; [lia | intros _; lia].
    - split; [exact Hlen | intros _; exact Hle]. }
  destruct Htext as [Hpos Hhead].
  intros Hin. apply rangeChunks_origin in Hin.
  destruct Hin as [[] | (chunk & Hin & Hs)].
  exists chunk. split; [|exact Hs].
  destruct (isHeading n) eqn:Hh; simpl negb in Hin; simpl andb in Hin.
  - destruct Hin as [<- | []]. split; [exact Hpos | now apply Hhead].
  - destruct (Nat.ltb_spec MaxBlockTextLength (String.length text)) as [Hlt | Hle].
    + assert (Hmax : 0 < MaxBlockTextLength) by (unfold MaxBlockTextLength; lia).
      destruct (splitTextIntoChunks_chunks text _ Hmax)
        as (chunks & E & _ & Hlong & _).
      rewrite E in Hin.
      destruct (Hlong Hlt) as (full & last & -> & _ & Hfull & Hlast).
      apply in_app_or in Hin. destruct Hin as [Hin | [<- | []]]; [|exact Hlast].
      rewrite Forall_forall in Hfull. rewrite (Hfull _ Hin). lia.
    + destruct Hin as [<- | []]. split; [exact Hpos | exact Hle].
Qed.

(** Every node of the tree, with the children before their younger
    siblings. *)
Lemma f_origin (b : Block) (n : Node) :
  In b (f n []) ->
  exists m, html.Type_ m = ElementNode /\ In b (convertNodeToBlocks m).
Proof.
  induction n as [ty data attr children IH] using Node_tree_ind.
  rewrite f_unfold. simpl. intros Hin.
  apply in_app_or in Hin. destruct Hin as [Hin | Hin].
  - destruct ty; simpl in Hin; try destruct Hin.
    eexists. split; [|exact Hin]. reflexivity.
  - apply in_flat_map in Hin. destruct Hin as (c & Hc & Hin).
    rewrite Forall_forall in IH. now apply (IH c Hc).
Qed.

(** The two results of [HTMLToNotionBlocks] on an input that parses. *)
Lemma HTMLToNotionBlocks_cases {htmlpkg : html.Pkg}
        (htmlContent : string) (blocks : list Block) :
  HTMLToNotionBlocks htmlContent = Ok blocks ->
  blocks <> []
  /\ exists doc,
      Parse htmlContent = Ok doc
      /\ (f doc [] = [] -> blocks = [paragraphBlock [mkRichText (mkText "")]])
      /\ (f doc [] <> [] -> blocks = f doc []).
Proof.
  unfold HTMLToNotionBlocks.
  destruct (Parse htmlContent) as [doc | err]; [|discriminate].
  intros H. injection H as <-.
  destruct (f doc []) as [|b bs] eqn:E; simpl.
  - split; [discriminate|]. exists doc. split; [reflexivity|].
    split; [reflexivity | congruence].
  - split; [discriminate|]. exists doc. split; [reflexivity|].
    split; [congruence | intros _; now rewrite E].
Qed.

(** When the input parses, [HTMLToNotionBlocks] never returns an empty
    list: it returns the blocks collected from the tree, or the single
    empty paragraph when there are none. *)
Theorem HTMLToNotionBlocks_nonempty {htmlpkg : html.Pkg}
        (htmlContent : string) (blocks : list Block) :
  HTMLToNotionBlocks htmlContent = Ok blocks ->
  blocks <> []
  /\ exists doc,
      Parse htmlContent = Ok doc
      /\ (f doc [] = [] -> blocks = [paragraphBlock [mkRichText (mkText "")]])
      /\ (f doc [] <> [] -> blocks = f doc []).
Proof. exact (HTMLToNotionBlocks_cases htmlContent blocks). Qed.

(** Every block of the export is well formed: its object is "block", and
    it is a heading, list item, quote, code or paragraph block whose
    [Type] names the one field that is set, holding a single run of rich
    text. *)
Theorem HTMLToNotionBlocks_well_formed {htmlpkg : html.Pkg}
        (htmlContent : string) (blocks : list Block) :
  HTMLToNotionBlocks htmlContent = Ok blocks ->
  Forall (fun b =>
            exists chunk,
              let rt := [mkRichText (mkText chunk)] in
              b = heading1Block rt \/ b = heading2Block rt
              \/ b = heading3Block rt \/ b = bulletedListItemBlock rt
              \/ b = quoteBlock rt \/ b = codeBlock rt
              \/ b = paragraphBlock rt)
         blocks.
Proof.
  intros H.
  destruct (HTMLToNotionBlocks_cases _ _ H) as (_ & doc & _ & Hempty & Hfull).
  destruct (f doc []) as [|b0 bs] eqn:E.
  - rewrite (Hempty eq_refl). constructor; [|constructor].
    exists "". simpl. tauto.
  - rewrite Hfull by discriminate. apply Forall_forall. intros b Hin.
    rewrite <- E in Hin.
    destruct (f_origin b doc Hin) as (m & _ & Hm).
    destruct (convertNodeToBlocks_origin m b Hm) as (chunk & _ & Hs).
    exists chunk. now apply (switchData_kinds m).
Qed.

(** No block made from the tree has an empty text: in the export, a block
    without text can only be the place-holder of an empty document. *)
Theorem HTMLToNotionBlocks_texts_nonempty {htmlpkg : html.Pkg}
        (htmlContent : string) (blocks : list Block) :
  HTMLToNotionBlocks htmlContent = Ok blocks ->
  blocks = [paragraphBlock [mkRichText (mkText "")]]
  \/ Forall (fun b => Forall (fun s => s <> "") (blockTexts b)) blocks.
Proof.
  intros H.
  destruct (HTMLToNotionBlocks_cases _ _ H) as (_ & doc & _ & Hempty & Hfull).
  destruct (f doc []) as [|b0 bs] eqn:E; [left; now apply Hempty|].
  right. rewrite Hfull by discriminate. apply Forall_forall. intros b Hin.
  rewrite <- E in Hin.
  destruct (f_origin b doc Hin) as (m & _ & Hm).
  destruct (convertNodeToBlocks_origin m b Hm) as (chunk & Hlen & Hs).
  assert (Hchunk : chunk <> "").
  { intros ->. simpl in Hlen. lia. }
  destruct (switchData_kinds m _ b Hs) as [-> | [-> | [-> | [-> | [-> | [-> | ->]]]]]];
    (constructor; [exact Hchunk | constructor]).
Qed.


Lemma length_joinStrings_full (m : nat) (full : list string) :
  Forall (fun c => String.length c = m) full ->
  String.length (joinStrings full) = m * List.length full.
Proof.
  induction 1 as [|c full Hc _ IH].
  - simpl. lia.
  - rewrite joinStrings_cons, length_append, Hc, IH. simpl. lia.
Qed.

(** A non-empty text of [L] bytes is split into [ceil (L / maxLen)]
    chunks. *)
Lemma splitTextIntoChunks_count (text : string) (maxLen : nat) :
  0 < maxLen ->
  0 < String.length text ->
  exists chunks,
    splitTextIntoChunks text maxLen = Some chunks
    /\ List.length chunks = (String.length text + (maxLen - 1)) / maxLen.
Proof.
  intros Hpos Hlen.
  destruct (splitTextIntoChunks_chunks text maxLen Hpos)
    as (chunks & E & Hshort & Hlong & Hj).
  exists chunks. split; [exact E|].
  destruct (Nat.le_gt_cases (String.length text) maxLen) as [Hle | Hgt].
  - rewrite (Hshort Hle). simpl.
    apply (Nat.div_unique _ _ 1 (String.length text - 1)); lia.
  - destruct (Hlong Hgt) as (full & last & -> & _ & Hfull & Hlast).
    rewrite <- Hj, joinStrings_app, length_append.
    rewrite (length_joinStrings_full maxLen full Hfull).
    rewrite joinStrings_cons. simpl joinStrings. rewrite append_empty_r.
    rewrite length_app. simpl List.length.
    apply (Nat.div_unique _ _ _ (String.length last - 1)); lia.
Qed.

(** The export of a paragraph, list item, quote or code element with a
    non-empty text of [L] bytes has [ceil (L / 2000)] blocks. *)
Theorem convertNodeToBlocks_count (n : Node) :
  Data n = "p" \/ Data n = "li" \/ Data n = "blockquote"
  \/ Data n = "pre" \/ Data n = "code" ->
  extractText n <> "" ->
  List.length (convertNodeToBlocks n)
  = (String.length (extractText n) + (MaxBlockTextLength - 1))
    / MaxBlockTextLength.
Proof.
  intros Htag Hne.
  destruct (switchData_split_tags n Htag) as (Hh & mk & Hmk & _).
  assert (Hlen : 0 < String.length (extractText n)).
  { destruct (extractText n); [congruence | simpl; lia]. }
  assert (Hpos : 0 < MaxBlockTextLength) by (unfold MaxBlockTextLength; lia).
  destruct (Nat.le_gt_cases (String.length (extractText n)) MaxBlockTextLength)
    as [Hle | Hgt].
  - unfold convertNodeToBlocks.
    apply String.eqb_neq in Hne. rewrite Hne, Hh. simpl andb. simpl negb.
    apply Nat.ltb_ge in Hle. rewrite Hle.
    rewrite (rangeChunks_Append _ _ Hmk), length_app, length_map.
    simpl List.length.
    apply Nat.ltb_ge in Hle.
    apply (Nat.div_unique _ _ 1 (String.length (extractText n) - 1)); lia.
  - destruct (convertNodeToBlocks_split n mk Hmk Hh Hgt) as (chunks & E & -> & _).
    destruct (splitTextIntoChunks_count (extractText n) _ Hpos Hlen)
      as (chunks' & E' & Hcount).
    rewrite E in E'. injection E' as <-.
    now rewrite length_map.
Qed.

(** A heading with text always becomes exactly one block, and a text
    within the limit is exported unchanged. *)
Theorem convertNodeToBlocks_single (n : Node) :
  In (Data n) ["h1"; "h2"; "h3"; "li"; "blockquote"; "pre"; "code"; "p"] ->
  extractText n <> "" ->
  isHeading n = true \/ String.length (extractText n) <= MaxBlockTextLength ->
  exists chunk,
    map blockTexts (convertNodeToBlocks n) = [[chunk]]
    /\ (String.length (extractText n) <= MaxBlockTextLength ->
        chunk = extractText n).
Proof.
  intros Htag Hne Hcase.
  assert (exists mk : list RichText -> Block,
             (forall rt, switchData n rt = Append (mk rt))
             /\ (forall rt, blockTexts (mk rt) = map runText rt))
    as (mk & Hmk & Htexts).
  { simpl in Htag.
    destruct Htag as [E | [E | [E | [E | [E | [E | [E | [E | []]]]]]]]];
      unfold switchData; rewrite <- E; simpl;
        eexists; (split; [intros rt; reflexivity | intros rt; block_texts]). }
  unfold convertNodeToBlocks.
  apply String.eqb_neq in Hne. rewrite Hne.
  destruct (isHeading n) eqn:Hh; simpl andb; simpl negb.
  - rewrite (rangeChunks_Append _ _ Hmk). simpl. rewrite Htexts. simpl.
    eexists. split; [reflexivity|].
    intros Hle. apply Nat.ltb_ge in Hle. now rewrite Hle.
  - destruct Hcase as [Hc | Hle]; [discriminate|].
    apply Nat.ltb_ge in Hle. rewrite Hle.
    rewrite (rangeChunks_Append _ _ Hmk). simpl. rewrite Htexts. simpl.
    eexists. split; reflexivity.
Qed.

(** With a limit of zero the loop of [splitTextIntoChunks] never ends on
    a non-empty text, however many iterations it is given. *)
Theorem splitTextIntoChunks_zero_diverges (text : string) :
  text <> "" ->
  splitTextIntoChunks text 0 = None
  /\ forall fuel chunks, splitLoop fuel text 0 chunks = None.
Proof.
  intros Hne.
  assert (Hlen : 0 < String.length text).
  { destruct text; [congruence | simpl; lia]. }
  split; [|intros; now apply splitLoop_zero_diverges].
  unfold splitTextIntoChunks.
  destruct (Nat.leb_spec (String.length text) 0); [lia|].
  now apply splitLoop_zero_diverges.
Qed.

End ExportExtras.

Section ExportExtrasWitnesses.
Import html notion examples.

Lemma HTMLToNotionBlocks_nonempty_witness :
  @HTMLToNotionBlocks asciiStrings plainHtml bareText
  = Ok [paragraphBlock [mkRichText (mkText "")]]
  /\ [paragraphBlock [mkRichText (mkText "")]] <> [].
Proof.
  split; [reflexivity|].
  apply (@HTMLToNotionBlocks_nonempty asciiStrings plainHtml bareText).
  reflexivity.
Defined.

Lemma HTMLToNotionBlocks_well_formed_witness :
  Forall (fun b =>
            exists chunk,
              let rt := [mkRichText (mkText chunk)] in
              b = heading1Block rt \/ b = heading2Block rt
              \/ b = heading3Block rt \/ b = bulletedListItemBlock rt
              \/ b = quoteBlock rt \/ b = codeBlock rt
              \/ b = paragraphBlock rt)
         [paragraphBlock [mkRichText (mkText "hello")];
          heading1Block [mkRichText (mkText "Title")]].
Proof.
  apply (@HTMLToNotionBlocks_well_formed asciiStrings plainHtml helloTitle).
  reflexivity.
Defined.

Lemma HTMLToNotionBlocks_texts_nonempty_witness :
  [quoteBlock [mkRichText (mkText "hi")]; paragraphBlock [mkRichText (mkText "hi")]]
  = [paragraphBlock [mkRichText (mkText "")]]
  \/ Forall (fun b => Forall (fun s => s <> "") (blockTexts b))
            [quoteBlock [mkRichText (mkText "hi")];
             paragraphBlock [mkRichText (mkText "hi")]].
Proof.
  apply (@HTMLToNotionBlocks_texts_nonempty asciiStrings plainHtml quoted).
  reflexivity.
Defined.


Lemma convertNodeToBlocks_count_witness :
  List.length (@convertNodeToBlocks asciiStrings longParagraph) = 3.
Proof.
  rewrite (@convertNodeToBlocks_count asciiStrings longParagraph).
  - vm_compute. reflexivity.
  - left. reflexivity.
  - vm_compute. discriminate.
Defined.

Lemma convertNodeToBlocks_single_witness :
  exists chunk,
    map blockTexts (@convertNodeToBlocks asciiStrings longHeading) = [[chunk]]
    /\ (String.length (@extractText asciiStrings longHeading) <= MaxBlockTextLength ->
        chunk = @extractText asciiStrings longHeading).
Proof.
  apply (@convertNodeToBlocks_single asciiStrings longHeading).
  - simpl. left. reflexivity.
  - vm_compute. discriminate.
  - left. reflexivity.
Defined.

Lemma splitTextIntoChunks_zero_diverges_witness :
  splitTextIntoChunks "abc" 0 = None
  /\ forall fuel chunks, splitLoop fuel "abc" 0 chunks = None.
Proof.
  apply (splitTextIntoChunks_zero_diverges "abc"). discriminate.
Defined.

End ExportExtrasWitnesses.

(* ================================================================== *)
(** * Further properties of the HTML translator *)

Section TranslatorExtras.
Import html translator.
Context {strings : StringsPkg} {htmlpkg : html.Pkg}.
Context {World : Type} {T : Translator World}.
Variable targetLang : string.

(** What is written at a translatable block whose translation succeeds. *)
Lemma traverse_translated_block
        (n : Node) (st : State World) (translated : string) (w' : World) :
  isTranslatableBlock n = true ->
  TrimSpace (extractText n) <> "" ->
  Translate (TrimSpace (extractText n)) targetLang (world st)
  = (Ok translated, w') ->
  traverseAndTranslate targetLang n st
  = (None,
     mkState ((result_ st ++ Render n)
              ++ createTranslationElement n translated)%string w').
Proof.
  intros Hb Htext Hok.
  rewrite (traverse_translatable targetLang n st Hb). unfold translateBlock.
  apply String.eqb_neq in Htext. rewrite Htext. simpl negb. cbv iota.
  unfold callTranslate, WriteString. simpl. now rewrite Hok.
Qed.

(** At a translatable block with text, when [Translate] succeeds the
    traversal writes the serialisation of the block followed by the
    translation element, and does not visit the children of the block. *)
Theorem traverse_translated
        (n : Node) (st : State World) (translated : string) (w' : World) :
  isTranslatableBlock n = true ->
  TrimSpace (extractText n) <> "" ->
  Translate (TrimSpace (extractText n)) targetLang (world st)
  = (Ok translated, w') ->
  traverseAndTranslate targetLang n st
  = (None,
     mkState ((result_ st ++ Render n)
              ++ createTranslationElement n translated)%string w').
Proof. exact (traverse_translated_block n st translated w'). Qed.

(** What a traversal writes is appended to the output so far and does not
    depend on it: it is determined by the node and the state of the
    translation service.  No traversal returns an error. *)
Theorem traverse_appends (n : Node) :
  forall w : World,
  exists (out : string) (w' : World),
    forall written : string,
      traverseAndTranslate targetLang n (mkState written w)
      = (None, mkState (written ++ out)%string w').
Proof.
  induction n as [ty data attr children IH] using Node_tree_ind.
  intros w.
  assert (Hloop : forall w0 : World,
             exists (out : string) (w' : World),
               forall written : string,
                 traverseChildren targetLang children (mkState written w0)
                 = (None, mkState (written ++ out)%string w')).
  { clear w. induction IH as [|c cs Hc _ IHcs]; intros w0.
    - exists "", w0. intros written. simpl. now rewrite append_empty_r.
    - destruct (Hc w0) as (out1 & w1 & H1).
      destruct (IHcs w1) as (out2 & w2 & H2).
      exists (out1 ++ out2)%string, w2. intros written. simpl.
      now rewrite H1, H2, append_assoc. }
  remember (mkNode ty data attr children) as node eqn:Hnode.
  assert (Hchildren : html.Children node = children) by now subst node.
  destruct (html.Type_ node =t? ElementNode) eqn:Hty.
  - destruct (isCodeBlock node) eqn:Hc.
    + exists (Render node), w. intros written.
      now rewrite (traverse_code targetLang node _ Hc).
    + destruct (isTranslatableBlock node) eqn:Hb.
      * destruct (String.eqb_spec (TrimSpace (extractText node)) "") as [He | Hne].
        -- exists "", w. intros written.
           rewrite (traverse_empty_block targetLang node _ Hb He).
           now rewrite append_empty_r.
        -- destruct (Translate (TrimSpace (extractText node)) targetLang w)
             as [[translated | err] w'] eqn:Et.
           ++ exists (Render node ++ createTranslationElement node translated)%string, w'.
              intros written.
              rewrite (traverse_translated_block node (mkState written w) translated w' Hb Hne Et).
              simpl. now rewrite append_assoc.
           ++ exists (Render node), w'. intros written.
              rewrite (traverse_translatable targetLang node _ Hb).
              unfold translateBlock. apply String.eqb_neq in Hne. rewrite Hne.
              simpl negb. cbv iota. unfold callTranslate, WriteString.
              cbn [world result_]. now rewrite Et.
      * destruct (Hloop w) as (out & w' & H). exists out, w'. intros written.
        rewrite traverseAndTranslate_unfold, Hty, Hc, Hb, Hchildren. apply H.
  - destruct (Hloop w) as (out & w' & H). exists out, w'. intros written.
    rewrite traverseAndTranslate_unfold, Hty, Hchildren. apply H.
Qed.

(** A tree without code blocks and translatable blocks (bare text, inline
    elements, lists without items, ...) is passed over: nothing is
    written and the translation service is not called. *)
Theorem traverse_plain (n : Node) :
  forall st : State World,
    plain n = true -> traverseAndTranslate targetLang n st = (None, st).
Proof.
  induction n as [ty data attr children IH] using Node_tree_ind.
  intros st Hp. simpl plain in Hp.
  apply andb_true_iff in Hp. destruct Hp as [Hp Hcs].
  apply andb_true_iff in Hp. destruct Hp as [Hc Hb].
  apply negb_true_iff in Hc, Hb.
  rewrite traverseAndTranslate_unfold, Hc, Hb.
  assert (Hloop : traverseChildren targetLang children st = (None, st)).
  { clear Hc Hb. revert st.
    induction IH as [|c cs Hc _ IHcs]; intros st; simpl; [reflexivity|].
    simpl in Hcs. apply andb_true_iff in Hcs. destruct Hcs as [Hpc Hpcs].
    rewrite (Hc st Hpc). now apply IHcs. }
  simpl html.Children. now destruct (html.Type_ _ =t? ElementNode).
Qed.

(** Every text the traversal hands to the translation service is
    non-empty and is to be translated into [ht.targetLang]. *)
Theorem traverse_calls (n : Node) :
  forall st : State (World * list (string * string)),
  exists new : list (string * string),
    snd (world (snd (traverseAndTranslate
                       (translator := logged T) targetLang n st)))
    = snd (world st) ++ new
    /\ Forall (fun call => fst call <> "" /\ snd call = targetLang) new.
Proof.
  induction n as [ty data attr children IH] using Node_tree_ind.
  intros st.
  assert (Hloop :
            forall st0 : State (World * list (string * string)),
            exists new,
              snd (world (snd (traverseChildren
                                 (translator := logged T) targetLang children st0)))
              = snd (world st0) ++ new
              /\ Forall (fun call => fst call <> "" /\ snd call = targetLang) new).
  { clear st. induction IH as [|c cs Hc _ IHcs]; intros st0; simpl.
    - exists []. split; [now rewrite app_nil_r | constructor].
    - destruct (Hc st0) as (new1 & E1 & F1).
      pose proof (traverse_no_error (T := logged T) targetLang c st0) as Hn.
      destruct (traverseAndTranslate targetLang c st0) as [[err|] st1];
        [discriminate|]. simpl in E1.
      destruct (IHcs st1) as (new2 & E2 & F2).
      exists (new1 ++ new2). split.
      + rewrite E2, E1, app_assoc. reflexivity.
      + apply Forall_app. split; assumption. }
  rewrite traverseAndTranslate_unfold.
  simpl html.Children.
  remember (mkNode ty data attr children) as node eqn:Hnode.
  destruct (html.Type_ node =t? ElementNode); [|apply Hloop].
  destruct (isCodeBlock node).
  { exists []. split; [simpl; now rewrite app_nil_r | constructor]. }
  destruct (isTranslatableBlock node); [|apply Hloop].
  unfold translateBlock.
  destruct (String.eqb_spec (TrimSpace (extractText node)) "") as [He | Hne];
    simpl negb; cbv iota.
  { exists []. split; [now rewrite app_nil_r | constructor]. }
  exists [(TrimSpace (extractText node), targetLang)].
  split; [|constructor; [split; [exact Hne | reflexivity] | constructor]].
  unfold callTranslate, WriteString. simpl.
  destruct (Translate (TrimSpace (extractText node)) targetLang (fst (world st)))
    as [[translated | err] w']; reflexivity.
Qed.

End TranslatorExtras.

Section FallbackExtras.
Import translator.
Context {strings : StringsPkg} {fallback : FallbackPkg}.
Context {World : Type} {T : Translator World}.
Variable targetLang : string.

Lemma count_indented (lines : list string) :
  Forall (fun line => prefix "    " line = true \/ prefix tab line = true) lines ->
  forall count,
    count + List.length lines
    <= fold_left
         (fun count line =>
            let count :=
              if prefix "    " line || prefix tab line then S count else count in
            if MatchString "^[a-zA-Z_][a-zA-Z0-9_]*\s*[=({]" line
            then S count else count)
         lines count.
Proof.
  set (step := fun (count : nat) (line : string) =>
                 let count :=
                   if prefix "    " line || prefix tab line then S count else count in
                 if MatchString "^[a-zA-Z_][a-zA-Z0-9_]*\s*[=({]" line
                 then S count else count).
  induction 1 as [|line lines Hline _ IH]; intros count; [simpl; lia|].
  change (fold_left step (line :: lines) count)
    with (fold_left step lines (step count line)).
  assert (Hstep : S count <= step count line).
  { unfold step.
    assert (E : prefix "    " line || prefix tab line = true).
    { apply orb_true_iff. exact Hline. }
    rewrite E. destruct (MatchString _ line); lia. }
  specialize (IH (step count line)). simpl List.length. lia.
Qed.

(** A paragraph all of whose lines start with four spaces or a tab looks
    like code. *)
Theorem looksLikeCode_indented (text : string) :
  Split text newline <> [] ->
  Forall (fun line => prefix "    " line = true \/ prefix tab line = true)
         (Split text newline) ->
  looksLikeCode text = true.
Proof.
  intros Hne Hall. unfold looksLikeCode. cbv zeta.
  pose proof (count_indented _ Hall 0) as Hcount. simpl in Hcount.
  apply Nat.ltb_lt.
  assert (Hlen : 0 < List.length (Split text newline)).
  { destruct (Split text newline); [congruence | simpl; lia]. }
  pose proof (Nat.div_lt (List.length (Split text newline)) 2 Hlen ltac:(lia)).
  lia.
Qed.

(** A paragraph without any line that is indented or starts like an
    assignment or a call does not look like code. *)
Theorem looksLikeCode_prose (text : string) :
  Forall (fun line =>
            prefix "    " line = false /\ prefix tab line = false
            /\ MatchString "^[a-zA-Z_][a-zA-Z0-9_]*\s*[=({]" line = false)
         (Split text newline) ->
  looksLikeCode text = false.
Proof.
  intros Hall. unfold looksLikeCode. cbv zeta.
  assert (E : forall count,
             fold_left
               (fun count line =>
                  let count :=
                    if prefix "    " line || prefix tab line then S count else count in
                  if MatchString "^[a-zA-Z_][a-zA-Z0-9_]*\s*[=({]" line
                  then S count else count)
               (Split text newline) count = count).
  { induction Hall as [|line lines (H1 & H2 & H3) _ IH]; intros count; simpl;
      [reflexivity|].
    rewrite H1, H2, H3. simpl. apply IH. }
  rewrite E. apply Nat.ltb_ge. lia.
Qed.

(** The paragraphs the fall-back keeps: trimmed and not empty. *)
Lemma translateSimpleText_fold (paragraphs : list string) :
  (forall text lang w, exists err w', Translate text lang w = (Err err, w')) ->
  forall st : State World,
    result_
      (fold_left
         (fun st para =>
            let para := TrimSpace para in
            if para =? "" then st
            else if looksLikeCode para
            then WriteString (newline ++ newline)%string (WriteString para st)
            else
              let st := WriteString (newline ++ newline)%string (WriteString para st) in
              match callTranslate targetLang para st with
              | (Ok translated, st) =>
                  WriteString (newline ++ newline)%string
                    (WriteString translated (WriteString "[译] " st))
              | (Err _, st) => st
              end)
         paragraphs st)
    = (result_ st
       ++ joinStrings
            (map (fun para => (para ++ newline ++ newline)%string)
                 (filter (fun para => negb (para =? ""))
                         (map TrimSpace paragraphs))))%string.
Proof.
  intros Hfail.
  induction paragraphs as [|para rest IH]; intros st.
  - simpl. now rewrite append_empty_r.
  - cbn [fold_left map filter]. cbv zeta.
    destruct (TrimSpace para =? "") eqn:He; cbn [negb].
    + apply IH.
    + rewrite IH. cbn [map]. rewrite joinStrings_cons.
      match goal with
      | |- (result_ ?X ++ _)%string = _ =>
          assert (E : result_ X
                      = (result_ st ++ TrimSpace para ++ newline ++ newline)%string)
      end.
      { destruct (looksLikeCode (TrimSpace para)).
        - unfold WriteString. cbn [result_]. now rewrite append_assoc.
        - unfold callTranslate, WriteString. cbn [world result_].
          destruct (Hfail (TrimSpace para) targetLang (world st)) as (err & w' & ->).
          cbn [result_]. now rewrite append_assoc. }
      rewrite E. now rewrite append_assoc.
Qed.

(** When every call of the translation service fails, the text fall-back
    returns, without an error, the trimmed non-empty paragraphs of the
    input, each followed by an empty line: no paragraph is lost. *)
Theorem translateSimpleText_failures (text : string) (w : World) :
  (forall text lang w, exists err w', Translate text lang w = (Err err, w')) ->
  fst (translateSimpleText targetLang text w)
  = (joinStrings
       (map (fun para => (para ++ newline ++ newline)%string)
            (filter (fun para => negb (para =? ""))
                    (map TrimSpace (Split text (newline ++ newline)%string)))),
     None).
Proof.
  intros Hfail. unfold translateSimpleText. cbv zeta. cbn [fst].
  f_equal. now rewrite (translateSimpleText_fold _ Hfail).
Qed.

End FallbackExtras.

Section TranslatorExtrasWitnesses.
Import html translator examples.

Lemma traverse_translated_witness :
  traverseAndTranslate
    (strings := asciiStrings) (htmlpkg := plainHtml) (translator := bracketing)
    "en" (elem "li" [text " item "]) (mkState "" 0)
  = (None,
     mkState (("" ++ "<li> item </li>")
              ++ @createTranslationElement plainHtml (elem "li" [text " item "])
                                           "[item]")%string 1).
Proof.
  apply (@traverse_translated asciiStrings plainHtml nat bracketing "en"
           (elem "li" [text " item "]) (mkState "" 0) "[item]" 1).
  - reflexivity.
  - vm_compute. discriminate.
  - reflexivity.
Defined.

Lemma traverse_plain_witness :
  traverseAndTranslate
    (strings := asciiStrings) (htmlpkg := plainHtml) (translator := bracketing)
    "en" bareTextDoc (mkState "" 0)
  = (None, mkState "" 0).
Proof.
  apply (@traverse_plain asciiStrings plainHtml nat bracketing "en" bareTextDoc).
  reflexivity.
Defined.

Lemma looksLikeCode_indented_witness :
  @looksLikeCode textPkg ("    x" ++ newline ++ tab ++ "y")%string = true.
Proof.
  apply (@looksLikeCode_indented textPkg).
  - vm_compute. discriminate.
  - vm_compute.
    constructor; [left; reflexivity|].
    constructor; [right; reflexivity | constructor].
Defined.

Lemma looksLikeCode_prose_witness :
  @looksLikeCode textPkg ("Hello there," ++ newline ++ "world.")%string = false.
Proof.
  apply (@looksLikeCode_prose textPkg).
  vm_compute. repeat constructor.
Defined.

Lemma translateSimpleText_failures_witness :
  fst (@translateSimpleText asciiStrings textPkg nat failing "en"
         ("hello" ++ newline ++ newline ++ "  x = 1 ")%string 0)
  = (("hello" ++ newline ++ newline ++ "x = 1" ++ newline ++ newline)%string, None).
Proof.
  rewrite (@translateSimpleText_failures asciiStrings textPkg nat failing "en").
  - vm_compute. reflexivity.
  - intros text lang w. simpl. eauto.
Defined.

End TranslatorExtrasWitnesses.

(* ================================================================== *)
(** * Further properties of the Notion client *)

Section ClientExtras.
(* Stated before the import, which brings the unfolded function of the
   same name into scope. *)
Local Abbreviation appendLoop_turn := appendLoop_unfold.
Import notion.
Context {strings : StringsPkg} {htmlpkg : html.Pkg}.
Context {World : Type} {env : Env World}.

(** [New] returns a client exactly when the API key and the database ID
    are both given, the client holds them, and a missing key is reported
    before a missing database ID. *)
Theorem New_checks_config (config : Config) :
  (forall client,
      New config = Ok client <->
      Config_APIKey config <> "" /\ Config_DatabaseID config <> ""
      /\ client = mkNotionClient (Config_APIKey config) (Config_DatabaseID config))
  /\ (Config_APIKey config = "" -> New config = Err ErrMissingAPIKey)
  /\ (Config_APIKey config <> "" -> Config_DatabaseID config = "" ->
      New config = Err ErrMissingDatabaseID).
Proof.
  unfold New.
  destruct (String.eqb_spec (Config_APIKey config) "") as [Ek | Hk];
    destruct (String.eqb_spec (Config_DatabaseID config) "") as [Ed | Hd];
    (split; [intros client; split;
             [intros H; try discriminate H; injection H as <-; auto
             | intros (H1 & H2 & H3); try congruence]
            | split; intros; congruence]).
Qed.

(** The three headers of a request of the client, whatever headers the
    request had before. *)
Lemma setHeaders_headers (n : NotionClient) (req : Request) (key value : string) :
  In (key, value)
     [("Authorization", ("Bearer " ++ APIKey n)%string);
      ("Content-Type", "application/json");
      ("Notion-Version", "2022-06-28")] ->
  In (key, value) (Header (setHeaders n req))
  /\ forall v, In (key, v) (Header (setHeaders n req)) -> v = value.
Proof.
  intros Hin. unfold setHeaders, HeaderSet. cbn [Header].
  assert (Hfilter : forall k (l : list (string * string)) k' v',
             In (k', v') (filter (fun kv => negb (fst kv =? k)) l)
             <-> In (k', v') l /\ k' <> k).
  { intros k l k' v'. rewrite filter_In. cbn beta. cbn [fst].
    rewrite negb_true_iff, String.eqb_neq. reflexivity. }
  simpl in Hin.
  destruct Hin as [E | [E | [E | []]]]; injection E as <- <-; split.
  - apply in_or_app. left. apply Hfilter. split; [|discriminate].
    apply in_or_app. left. apply Hfilter. split; [|discriminate].
    apply in_or_app. right. now left.
  - intros v Hv.
    apply in_app_or in Hv. destruct Hv as [Hv | [Hv | []]]; [|discriminate Hv].
    apply Hfilter in Hv. destruct Hv as [Hv _].
    apply in_app_or in Hv. destruct Hv as [Hv | [Hv | []]]; [|discriminate Hv].
    apply Hfilter in Hv. destruct Hv as [Hv _].
    apply in_app_or in Hv. destruct Hv as [Hv | [Hv | []]].
    + apply Hfilter in Hv. destruct Hv as [_ Hv]. congruence.
    + now injection Hv.
  - apply in_or_app. left. apply Hfilter. split; [|discriminate].
    apply in_or_app. right. now left.
  - intros v Hv.
    apply in_app_or in Hv. destruct Hv as [Hv | [Hv | []]]; [|discriminate Hv].
    apply Hfilter in Hv. destruct Hv as [Hv _].
    apply in_app_or in Hv. destruct Hv as [Hv | [Hv | []]].
    + apply Hfilter in Hv. destruct Hv as [_ Hv]. congruence.
    + now injection Hv.
  - apply in_or_app. right. now left.
  - intros v Hv.
    apply in_app_or in Hv. destruct Hv as [Hv | [Hv | []]].
    + apply Hfilter in Hv. destruct Hv as [_ Hv]. congruence.
    + now injection Hv.
Qed.

Lemma sent_send (payload : Payload) (req : Request) (s : Net World) :
  sent (snd (send payload req s)) = sent s ++ [(payload, req)].
Proof. unfold send. now destruct (Do req (world s)). Qed.

(** The requests of [appendBlocksBatch] have passed through
    [setHeaders]. *)
Lemma appendBlocksBatch_sent (n : NotionClient) (pageID : string)
      (batch : list Block) (s : Net World) :
  exists new,
    sent (snd (appendBlocksBatch n pageID batch s)) = sent s ++ new
    /\ Forall (fun entry => exists req, snd entry = setHeaders n req) new.
Proof.
  unfold appendBlocksBatch.
  destruct (Marshal _) as [jsonData | err];
    [|exists []; split; [now rewrite app_nil_r | constructor]].
  destruct (NewRequestWithContext _ _ _) as [req | err];
    [|exists []; split; [now rewrite app_nil_r | constructor]].
  exists [(ChildrenMap batch, setHeaders n req)].
  split; [|constructor; [now exists req | constructor]].
  pose proof (sent_send (ChildrenMap batch) (setHeaders n req) s) as Hs.
  destruct (send _ _ s) as [[resp | err] s1]; simpl in Hs; [|exact Hs].
  destruct (ReadAll_Body resp) as [body | err]; [|exact Hs].
  destruct (negb _); exact Hs.
Qed.

Lemma appendLoop_sent (n : NotionClient) (pageID : string) (blocks : list Block) :
  forall k i s,
    List.length blocks - i < k ->
    exists new,
      sent (snd (appendLoop n pageID blocks i s)) = sent s ++ new
      /\ Forall (fun entry => exists req, snd entry = setHeaders n req) new.
Proof.
  induction k as [|k IH]; intros i s Hk; [lia|].
  rewrite appendLoop_turn.
  destruct (Nat.ltb_spec i (List.length blocks)) as [Hi | Hi];
    [|exists []; split; [now rewrite app_nil_r | constructor]].
  cbv zeta.
  match goal with
  | |- context [appendBlocksBatch n pageID ?b s] =>
      destruct (appendBlocksBatch_sent n pageID b s) as (new1 & E1 & F1);
      destruct (appendBlocksBatch n pageID b s) as [[err|] s1]
  end; simpl in E1.
  - exists new1. split; assumption.
  - destruct (IH (i + maxBlocksPerRequest) s1) as (new2 & E2 & F2).
    { unfold maxBlocksPerRequest. lia. }
    exists (new1 ++ new2). split.
    + now rewrite E2, E1, app_assoc.
    + apply Forall_app. split; assumption.
Qed.

Lemma postPage_sent (n : NotionClient) (title : string)
      (initialBlocks : list Block) (s : Net World) :
  exists new,
    sent (snd (postPage n title initialBlocks s)) = sent s ++ new
    /\ Forall (fun entry => exists req, snd entry = setHeaders n req) new.
Proof.
  unfold postPage.
  destruct (Marshal _) as [jsonData | err];
    [|exists []; split; [now rewrite app_nil_r | constructor]].
  destruct (NewRequestWithContext _ _ _) as [req | err];
    [|exists []; split; [now rewrite app_nil_r | constructor]].
  match goal with
  | |- context [send ?p ?r s] =>
      exists [(p, r)]; split; [|constructor; [now exists req | constructor]];
      pose proof (sent_send p r s) as Hs;
      destruct (send p r s) as [[resp | err] s1]
  end; simpl in Hs; [|exact Hs].
  destruct (ReadAll_Body resp) as [body | err]; [|exact Hs].
  destruct (negb _); [exact Hs|].
  destruct (Unmarshal body); exact Hs.
Qed.

(** Every request [CreatePage] sends carries the authorization of the
    client, the JSON content type and the version of the Notion API, each
    exactly once. *)
Theorem CreatePage_headers
        (n : NotionClient) (title content : string) (s : Net World) :
  exists new,
    sent (snd (CreatePage n title content s)) = sent s ++ new
    /\ Forall
         (fun entry =>
            forall key value,
              In (key, value)
                 [("Authorization", ("Bearer " ++ APIKey n)%string);
                  ("Content-Type", "application/json");
                  ("Notion-Version", "2022-06-28")] ->
              In (key, value) (Header (snd entry))
              /\ forall v, In (key, v) (Header (snd entry)) -> v = value)
         new.
Proof.
  assert (Hsent : exists new,
             sent (snd (CreatePage n title content s)) = sent s ++ new
             /\ Forall (fun entry => exists req, snd entry = setHeaders n req) new).
  { unfold CreatePage.
    destruct (HTMLToNotionBlocks content) as [blocks | err];
      [|exists []; split; [now rewrite app_nil_r | constructor]].
    cbv zeta.
    match goal with
    | |- context [postPage n title ?b s] =>
        destruct (postPage_sent n title b s) as (new1 & E1 & F1);
        destruct (postPage n title b s) as [[pageResp | err] s1]
    end; simpl in E1; [|exists new1; split; assumption].
    destruct (maxBlocksPerRequest <? List.length blocks)%nat;
      [|exists new1; split; assumption].
    destruct (appendLoop_sent n (ID pageResp) (skipn maxBlocksPerRequest blocks)
                (S (List.length (skipn maxBlocksPerRequest blocks))) 0 s1)
      as (new2 & E2 & F2); [lia|].
    fold (appendBlocks n (ID pageResp) (skipn maxBlocksPerRequest blocks) s1) in E2.
    exists (new1 ++ new2). split; [|apply Forall_app; split; assumption].
    destruct (appendBlocks n (ID pageResp) (skipn maxBlocksPerRequest blocks) s1)
      as [[err|] s2]; simpl in E2 |- *; now rewrite E2, E1, app_assoc. }
  destruct Hsent as (new & E & F). exists new. split; [exact E|].
  eapply Forall_impl; [|exact F].
  intros entry (req & ->) key value Hin. now apply setHeaders_headers.
Qed.

End ClientExtras.

Section ClientOutcomes.
(* Stated before the import, which brings the unfolded function of the
   same name into scope. *)
Local Abbreviation appendLoop_turn' := appendLoop_unfold.
Import notion.
Context {strings : StringsPkg} {htmlpkg : html.Pkg}.
Context {World : Type} {env : Env World}.

Lemma appendBlocksBatch_error (n : NotionClient) (pageID : string)
      (batch : list Block) (s : Net World) (e : error) :
  fst (appendBlocksBatch n pageID batch s) = Some e ->
  exists msg, e = wrapError msg ErrAPICallFailed.
Proof.
  unfold appendBlocksBatch, Errorf_w_v, Errorf_status.
  destruct (Marshal _) as [jsonData | err]; simpl;
    [|intros H; injection H as <-; eauto].
  destruct (NewRequestWithContext _ _ _) as [req | err]; simpl;
    [|intros H; injection H as <-; eauto].
  destruct (send _ _ s) as [[resp | err] s1]; simpl;
    [|intros H; injection H as <-; eauto].
  destruct (ReadAll_Body resp) as [body | err]; simpl;
    [|intros H; injection H as <-; eauto].
  destruct (negb _); simpl; intros H; [injection H as <-; eauto | discriminate].
Qed.

Lemma appendLoop_error (n : NotionClient) (pageID : string)
      (blocks : list Block) (e : error) :
  forall k i s,
    List.length blocks - i < k ->
    fst (appendLoop n pageID blocks i s) = Some e ->
    exists msg, e = wrapError msg ErrAPICallFailed.
Proof.
  induction k as [|k IH]; intros i s Hk; [lia|].
  rewrite appendLoop_turn'.
  destruct (Nat.ltb_spec i (List.length blocks)) as [Hi | Hi]; [|discriminate].
  cbv zeta.
  match goal with
  | |- context [appendBlocksBatch n pageID ?b s] =>
      pose proof (appendBlocksBatch_error n pageID b s) as Hb;
      destruct (appendBlocksBatch n pageID b s) as [[err|] s1]
  end; simpl in Hb |- *.
  - intros H. injection H as <-. now apply Hb.
  - apply IH. unfold maxBlocksPerRequest. lia.
Qed.

Lemma postPage_error (n : NotionClient) (title : string)
      (initialBlocks : list Block) (s : Net World) (e : error) :
  fst (postPage n title initialBlocks s) = Err e ->
  exists msg, e = wrapError msg ErrAPICallFailed.
Proof.
  unfold postPage, Errorf_w_v, Errorf_status.
  destruct (Marshal _) as [jsonData | err]; simpl;
    [|intros H; injection H as <-; eauto].
  destruct (NewRequestWithContext _ _ _) as [req | err]; simpl;
    [|intros H; injection H as <-; eauto].
  destruct (send _ _ s) as [[resp | err] s1]; simpl;
    [|intros H; injection H as <-; eauto].
  destruct (ReadAll_Body resp) as [body | err]; simpl;
    [|intros H; injection H as <-; eauto].
  destruct (negb _); simpl; [intros H; injection H as <-; eauto|].
  destruct (Unmarshal body); simpl; intros H;
    [discriminate | injection H as <-; eauto].
Qed.

(** What [CreatePage] can return.  Without a page: the empty URL and an
    error that wraps [ErrConversionFailed] (the HTML did not parse, and
    nothing was sent) or [ErrAPICallFailed].  With a page created: its
    URL, and either no error or the error of the failed append, itself
    wrapping [ErrAPICallFailed], wrapped once more. *)
Theorem CreatePage_outcomes
        (n : NotionClient) (title content : string) (s : Net World) :
  (exists err,
      html.Parse content = Err err
      /\ CreatePage n title content s
         = (("", Some (Errorf_w_v ErrConversionFailed err)), s)
      /\ Errorf_w_v ErrConversionFailed err
         = wrapError ("notion: HTML conversion failed: " ++ Error err)%string
                     ErrConversionFailed)
  \/ (exists msg,
         fst (CreatePage n title content s)
         = ("", Some (wrapError msg ErrAPICallFailed)))
  \/ (exists blocks pageResp s1,
         HTMLToNotionBlocks content = Ok blocks
         /\ postPage n title (firstn maxBlocksPerRequest blocks) s
            = (Ok pageResp, s1)
         /\ (fst (CreatePage n title content s) = (URL pageResp, None)
             \/ exists msg,
                 fst (CreatePage n title content s)
                 = (URL pageResp,
                    Some (Errorf_append (wrapError msg ErrAPICallFailed))))).
Proof.
  unfold CreatePage, HTMLToNotionBlocks.
  destruct (html.Parse content) as [doc | err];
    [|left; exists err; repeat split; reflexivity].
  right. cbv zeta. rewrite initialBlocks_firstn.
  set (blocks := if (List.length (f doc []) =? 0)%nat
                 then f doc [] ++ [paragraphBlock [mkRichText (mkText "")]]
                 else f doc []).
  pose proof (postPage_error n title (firstn maxBlocksPerRequest blocks) s) as Hpost.
  destruct (postPage n title (firstn maxBlocksPerRequest blocks) s)
    as [[pageResp | err] s1] eqn:Epost; simpl in Hpost.
  - right. exists blocks, pageResp, s1.
    split; [reflexivity|]. split; [exact Epost|].
    destruct (maxBlocksPerRequest <? List.length blocks)%nat; [|now left].
    pose proof (appendLoop_error n (ID pageResp) (skipn maxBlocksPerRequest blocks))
      as Happ.
    unfold appendBlocks.
    destruct (appendLoop n (ID pageResp) (skipn maxBlocksPerRequest blocks) 0 s1)
      as [[err|] s2] eqn:Eapp; [|now left].
    right.
    destruct (Happ err (S (List.length (skipn maxBlocksPerRequest blocks))) 0 s1)
      as (msg & ->); [lia | now rewrite Eapp |].
    now exists msg.
  - left. destruct (Hpost err eq_refl) as (msg & ->). now exists msg.
Qed.

End ClientOutcomes.

(* ================================================================== *)
(** * The factory of translators and the truncation of requests *)

Section FactoryExtras.
Import translator.

(** A translator returned by [New] has every field it needs: the target
    language is never empty (it is "zh-CN" when the configuration names
    none), nor is the API key of a Gemini or Microsoft translator, nor the
    URL and the model of an Ollama translator (the model is "qwen2:4b"
    when the configuration names none). *)
Theorem New_backend_complete (config : Config) (backend : Backend) :
  New config = Ok backend ->
  BackendTargetLang backend
  = (if TargetLang config =? "" then "zh-CN" else TargetLang config)
  /\ BackendTargetLang backend <> ""
  /\ match backend with
     | GeminiTranslator key _ =>
         Provider config = "gemini" /\ key = APIKey config /\ key <> ""
     | OllamaTranslator url model _ =>
         Provider config = "ollama" /\ url = URL config /\ url <> ""
         /\ model = (if Model config =? "" then "qwen2:4b" else Model config)
         /\ model <> ""
     | GoogleTranslator _ => Provider config = "google"
     | MicrosoftTranslator key _ =>
         Provider config = "microsoft" /\ key = APIKey config /\ key <> ""
     end.
Proof.
  assert (Hlang : (if TargetLang config =? "" then "zh-CN" else TargetLang config)
                  <> "").
  { destruct (String.eqb_spec (TargetLang config) ""); [discriminate | assumption]. }
  assert (Hmodel : (if Model config =? "" then "qwen2:4b" else Model config) <> "").
  { destruct (String.eqb_spec (Model config) ""); [discriminate | assumption]. }
  unfold New. cbv zeta.
  destruct (String.eqb_spec (Provider config) "gemini") as [Ep | _].
  { destruct (String.eqb_spec (APIKey config) "") as [_ | Hk]; [discriminate|].
    intros H. injection H as <-. simpl. repeat split; auto. }
  destruct (String.eqb_spec (Provider config) "ollama") as [Ep | _].
  { destruct (String.eqb_spec (URL config) "") as [_ | Hu]; [discriminate|].
    intros H. injection H as <-. simpl. repeat split; auto. }
  destruct (String.eqb_spec (Provider config) "google") as [Ep | _].
  { intros H. injection H as <-. simpl. repeat split; auto. }
  destruct (String.eqb_spec (Provider config) "microsoft") as [Ep | _].
  { destruct (String.eqb_spec (APIKey config) "") as [_ | Hk]; [discriminate|].
    intros H. injection H as <-. simpl. repeat split; auto. }
  destruct ((Provider config =? "disabled") || (Provider config =? ""));
    discriminate.
Qed.

(** [New] fails with an error wrapping [ErrProviderNotConfigured] for a
    known provider that is disabled or lacks its key or URL, and with an
    error wrapping [ErrProviderNotSupported] and naming the provider for
    every unknown one. *)
Theorem New_errors (config : Config) (e : error) :
  New config = Err e ->
  (In (Provider config) ["gemini"; "ollama"; "microsoft"; "disabled"; ""]
   /\ exists msg, e = wrapError msg ErrProviderNotConfigured)
  \/ (~ In (Provider config)
        ["gemini"; "ollama"; "google"; "microsoft"; "disabled"; ""]
      /\ e = wrapError ("translation provider not supported: " ++ Provider config)%string
                       ErrProviderNotSupported).
Proof.
  unfold New, Errorf_w. cbv zeta.
  destruct (String.eqb_spec (Provider config) "gemini") as [Ep | N1].
  { destruct (APIKey config =? ""); [|discriminate].
    intros H. injection H as <-. left. rewrite Ep. split; [simpl; tauto | eauto]. }
  destruct (String.eqb_spec (Provider config) "ollama") as [Ep | N2].
  { destruct (URL config =? ""); [|discriminate].
    intros H. injection H as <-. left. rewrite Ep. split; [simpl; tauto | eauto]. }
  destruct (String.eqb_spec (Provider config) "google") as [Ep | N3]; [discriminate|].
  destruct (String.eqb_spec (Provider config) "microsoft") as [Ep | N4].
  { destruct (APIKey config =? ""); [|discriminate].
    intros H. injection H as <-. left. rewrite Ep. split; [simpl; tauto | eauto]. }
  destruct (String.eqb_spec (Provider config) "disabled") as [Ep | N5].
  { simpl. intros H. injection H as <-. left. rewrite Ep.
    split; [simpl; tauto | eauto]. }
  destruct (String.eqb_spec (Provider config) "") as [Ep | N6].
  { simpl. intros H. injection H as <-. left. rewrite Ep.
    split; [simpl; tauto | eauto]. }
  simpl. intros H. injection H as <-. right. split; [|reflexivity].
  simpl. intros [E | [E | [E | [E | [E | [E | []]]]]]]; congruence.
Qed.

Lemma sliceTo_length_append (a b : string) :
  sliceTo (String.length a) (a ++ b)%string = a.
Proof.
  unfold sliceTo. induction a as [|c a IH]; simpl.
  - now destruct b.
  - now rewrite IH.
Qed.

(** [truncateContent] leaves a content within the limit unchanged;
    otherwise it keeps the first [maxLen] bytes and adds three dots, so
    that the result has [maxLen + 3] bytes, three more than the limit. *)
Theorem truncateContent_length (content : string) (maxLen : nat) :
  (String.length content <= maxLen -> truncateContent content maxLen = content)
  /\ (maxLen < String.length content ->
      String.length (truncateContent content maxLen) = maxLen + 3
      /\ sliceTo maxLen (truncateContent content maxLen) = sliceTo maxLen content)
  /\ String.length (truncateContent content maxLen) <= maxLen + 3.
Proof.
  unfold truncateContent.
  destruct (Nat.leb_spec (String.length content) maxLen) as [Hle | Hgt].
  - split; [reflexivity|]. split; [lia | lia].
  - assert (Hlen : String.length (sliceTo maxLen content) = maxLen).
    { apply length_sliceTo. lia. }
    split; [lia|].
    rewrite length_append, Hlen. simpl String.length.
    split; [|lia]. intros _. split; [reflexivity|].
    rewrite <- Hlen at 1. apply sliceTo_length_append.
Qed.

End FactoryExtras.

Section FactoryWitnesses.
Import translator.

Lemma New_backend_complete_witness :
  BackendTargetLang (OllamaTranslator "http://localhost:11434" "qwen2:4b" "zh-CN")
  = "zh-CN".
Proof.
  apply (New_backend_complete
           (mkConfig "ollama" "" "http://localhost:11434" "" "")
           (OllamaTranslator "http://localhost:11434" "qwen2:4b" "zh-CN")).
  reflexivity.
Defined.

Lemma New_errors_witness :
  (In "deepl" ["gemini"; "ollama"; "microsoft"; "disabled"; ""]
   /\ exists msg,
       Errorf_w ErrProviderNotSupported "deepl"
       = wrapError msg ErrProviderNotConfigured)
  \/ (~ In "deepl" ["gemini"; "ollama"; "google"; "microsoft"; "disabled"; ""]
      /\ Errorf_w ErrProviderNotSupported "deepl"
         = wrapError "translation provider not supported: deepl"
                     ErrProviderNotSupported).
Proof.
  apply (New_errors (mkConfig "deepl" "key" "" "" "en")). reflexivity.
Defined.

End FactoryWitnesses.
